(** * CircleCI artifact resolution and emulator helpers of the local e2e
      testing scripts (testing-utils.js and its revisions)

    The development embeds the JavaScript of the scripts shallowly:

    - every effect of the scripts (console output, shell commands run through
      shelljs [exec], child processes started through [spawn], HTTP requests
      sent through [request], promise rejections nobody awaits) is an [Event]
      appended to one trace, in program order;
    - what the outside world answers (the output of a shell command, the
      response of the CircleCI API, which of two pending requests settles
      first) is read from an [Env], each answer being a function of the trace
      so far;
    - a function of the scripts is a computation of the monad [JS]: it maps
      the machine (trace and resolver object) to a completion, either
      [Returned v] or [Thrown e], and the new machine.  The promise of an
      [async] function is fulfilled with the returned value and rejected with
      the thrown error; [await] of a promise propagates its rejection,
      whereas a promise that is not awaited keeps its rejection to itself;
    - a process is a machine together with the rejections that nothing
      handles: when the event loop gets control while one is pending, the
      process exits with it ([Node], [tick]), which is how Node runs the
      scripts, since they install no handler for the event. *)

From Stdlib Require Import String Ascii List ZArith Bool Lia DecimalString.
Import ListNotations.
Local Open Scope string_scope.
Local Open Scope Z_scope.

Set Implicit Arguments.

(* ===================================================================== *)
(** ** Strings as JavaScript sees them                                    *)
(* ===================================================================== *)

Module JsString.

(** [s.startsWith(p)], the test [indexOf] repeats at every position. *)
Fixpoint startsWith (s p : string) {struct p} : bool :=
  match p, s with
  | EmptyString, _ => true
  | String _ _, EmptyString => false
  | String c p', String d s' => Ascii.eqb c d && startsWith s' p'
  end.

(** [s.indexOf(p)] counted from position [k]: the first position at which
    [p] occurs in [s], and [-1] when it occurs nowhere. *)
Fixpoint indexOf_from (k : Z) (s p : string) : Z :=
  if startsWith s p then k
  else match s with
       | EmptyString => -1
       | String _ s' => indexOf_from (k + 1) s' p
       end.

Definition indexOf (s p : string) : Z := indexOf_from 0 s p.

(** [p] is a substring of [s]. *)
Definition contains (s p : string) : Prop :=
  exists pre post, s = pre ++ p ++ post.

(** White space removed by [trim] (the ASCII part of it). *)
Definition is_space (c : ascii) : bool :=
  let n := nat_of_ascii c in
  ((9 <=? n) && (n <=? 13))%nat || (n =? 32)%nat.

Fixpoint trimStart (s : string) : string :=
  match s with
  | String c s' => if is_space c then trimStart s' else s
  | EmptyString => EmptyString
  end.

(** [trimEnd] drops the trailing white space: a character is kept when it
    is no space or when something is kept after it. *)
Fixpoint trimEnd (s : string) : string :=
  match s with
  | EmptyString => EmptyString
  | String c s' =>
      match trimEnd s' with
      | EmptyString => if is_space c then EmptyString else String c EmptyString
      | rest => String c rest
      end
  end.

Definition trim (s : string) : string := trimEnd (trimStart s).

(** [s.split(sep)] for a separator of one character: [acc] holds the
    characters of the piece being read. *)
Fixpoint split_acc (sep : ascii) (acc : string) (s : string) : list string :=
  match s with
  | EmptyString => [acc]
  | String c s' =>
      if Ascii.eqb c sep then acc :: split_acc sep EmptyString s'
      else split_acc sep (acc ++ String c EmptyString) s'
  end.

Definition split (sep : ascii) (s : string) : list string :=
  split_acc sep EmptyString s.

(** [arr.slice(1)] *)
Definition slice1 {A : Type} (l : list A) : list A := tl l.

(** A number inside a template literal. *)
Definition ofNumber (n : Z) : string := NilZero.string_of_int (Z.to_int n).

Definition newline : ascii := ascii_of_nat 10.

End JsString.

Import JsString.

(* ===================================================================== *)
(** ** Values, errors and completions                                     *)
(* ===================================================================== *)

(** The few kinds of value whose truthiness the scripts test. *)
Inductive JsValue : Type :=
| VUndefined
| VNull
| VBool (b : bool)
| VNumber (n : Z)
| VString (s : string)
| VFunction (name : string)
| VObject.

(** ToBoolean of ECMAScript, as applied by [if (v)]. *)
Definition truthy (v : JsValue) : bool :=
  match v with
  | VUndefined | VNull => false
  | VBool b => b
  | VNumber n => negb (n =? 0)
  | VString s => negb (String.eqb s "")
  | VFunction _ | VObject => true
  end.

(** What can be thrown: an [Error] built by the scripts with [new Error(msg)],
    the [TypeError] of reading a property of [undefined], the
    [ReferenceError] of an identifier bound nowhere, and whatever error the
    transport itself rejects with. *)
Inductive JsError : Type :=
| Error (message : string)
| TypeError (message : string)
| ReferenceError (message : string)
| Transport (detail : string).

Definition cannot_read (prop : string) : JsError :=
  TypeError ("Cannot read properties of undefined (reading '" ++ prop ++ "')").

Definition not_defined (ident : string) : JsError :=
  ReferenceError (ident ++ " is not defined").

Inductive Completion (A : Type) : Type :=
| Returned (a : A)
| Thrown (e : JsError).
Arguments Returned {A} a.
Arguments Thrown {A} e.

(* ===================================================================== *)
(** ** The data of the CircleCI API                                       *)
(* ===================================================================== *)

Definition Headers : Type := list (string * string).

(** The [options] object handed to [request]. [headers] is [None] when the
    expression it is built from is [undefined]. *)
Record Options : Type := mkOptions {
  method : string;
  url : string;
  qs : list (string * string);
  headers : option Headers
}.

Record Pipeline : Type := mkPipeline { pipeline_id : string; pipeline_number : Z }.
Record Workflow : Type := mkWorkflow { wf_id : string; wf_name : string; wf_status : string }.
Record Job : Type := mkJob { job_name : string; job_number : Z }.
Record Artifact : Type := mkArtifact { art_path : string; art_url : string }.

(** A response whose body parses to an object with an [items] array, the
    shape every list endpoint of the API answers with. [resp_error] is the
    [error] property the helpers test. *)
Record Response (A : Type) : Type := mkResponse {
  resp_error : option JsError;
  resp_items : list A
}.
Arguments mkResponse {A} resp_error resp_items.

(* ===================================================================== *)
(** ** Effects                                                            *)
(* ===================================================================== *)

Inductive Event : Type :=
| ConsoleInfo (line : string)
| ConsoleLog (line : string)
| ConsoleError (line : string)
| ConsoleWarn (line : string)
| Exec (command : string)
| Spawn (command : string) (args : list string)
| Request (options : Options)
| UnhandledRejection (e : JsError).

Definition Trace : Type := list Event.

(** The answers of the world. *)
Record Env : Type := mkEnv {
  ANDROID_HOME : option string;
  exec_stdout : Trace -> string -> string;
  spawn_throws : Trace -> string -> list string -> option JsError;
  pipeline_api : Trace -> Options -> Completion (Response Pipeline);
  workflow_api : Trace -> Options -> Completion (Response Workflow);
  job_api : Trace -> Options -> Completion (Response Job);
  artifact_api : Trace -> Options -> Completion (Response Artifact);
  second_settles_first : Trace -> bool
}.

(** The resolver object ([this] of the class, the module variables of the
    free-function variant); a property never assigned is [None]. *)
Record CircleCIArtifacts : Type := mkResolver {
  circleCIToken : option Headers;
  circleCIHeaders : option Headers;
  jobs : option (list Job);
  baseTmpPath : option string
}.

Record Machine : Type := mkMachine {
  trace : Trace;
  this : CircleCIArtifacts
}.

Definition JS (A : Type) : Type := Machine -> Completion A * Machine.

Definition ret {A : Type} (a : A) : JS A := fun m => (Returned a, m).

Definition throw {A : Type} (e : JsError) : JS A := fun m => (Thrown e, m).

Definition bind {A B : Type} (c : JS A) (k : A -> JS B) : JS B :=
  fun m =>
    match c m with
    | (Returned a, m') => k a m'
    | (Thrown e, m') => (Thrown e, m')
    end.

Declare Scope js_scope.
Delimit Scope js_scope with js.
Notation "x <- c ;; k" := (bind c (fun x => k))
  (at level 100, c at next level, right associativity) : js_scope.
Notation "c ;; k" := (bind c (fun _ => k))
  (at level 100, right associativity) : js_scope.
Local Open Scope js_scope.

Definition emit (ev : Event) : JS unit :=
  fun m => (Returned tt, mkMachine (trace m ++ [ev])%list (this m)).

Definition getThis : JS CircleCIArtifacts := fun m => (Returned (this m), m).

Definition setThis (r : CircleCIArtifacts) : JS unit :=
  fun m => (Returned tt, mkMachine (trace m) r).

(** Calling an [async] function without [await]: the caller holds the
    promise. The body runs at once up to its first [await], which is where
    the helpers send their request; what it does after that adds nothing to
    the trace, so the promise is given here as it will settle. *)
Definition call_async {A : Type} (c : JS A) : JS (Completion A) :=
  fun m => let (p, m') := c m in (Returned p, m').

(** [await p] *)
Definition await {A : Type} (p : Completion A) : JS A := fun m => (p, m).

(** A promise dropped without a handler: its rejection reaches nobody but
    the runtime. [JS] has no event loop: the trace records the rejection
    where the promise is dropped and the computation goes on, as the
    function itself does. When the runtime looks at the rejection, and what
    becomes of the process then, is the matter of [tick] below. *)
Definition drop {A : Type} (p : Completion A) : JS unit :=
  match p with
  | Returned _ => ret tt
  | Thrown e => emit (UnhandledRejection e)
  end.

(** [try { c } catch (error) { h error }] *)
Definition try_catch {A : Type} (c : JS A) (h : JsError -> JS A) : JS A :=
  fun m =>
    match c m with
    | (Returned a, m') => (Returned a, m')
    | (Thrown e, m') => h e m'
    end.

(** [Promise.all([p1, p2])]: fulfilled with both values in the order of the
    array, rejected with the rejection that comes first in time. *)
Definition Promise_all2 {A : Type} (second_first : bool)
    (p1 p2 : Completion A) : Completion (list A) :=
  match p1, p2 with
  | Returned a, Returned b => Returned [a; b]
  | Thrown e, Returned _ => Thrown e
  | Returned _, Thrown e => Thrown e
  | Thrown e1, Thrown e2 => Thrown (if second_first then e2 else e1)
  end.

(* ===================================================================== *)
(** ** The scripts                                                        *)
(* ===================================================================== *)

Section Scripts.

Variable env : Env.

(** [exec(command)] of shelljs, read for its [stdout]. *)
Definition exec (command : string) : JS string :=
  fun m => (Returned (exec_stdout env (trace m) command),
            mkMachine (trace m ++ [Exec command])%list (this m)).

(** [spawn(command, args, {detached: true, stdio: 'ignore'})] followed by
    [cp.unref()]. *)
Definition spawn (command : string) (args : list string) : JS unit :=
  fun m =>
    let m' := mkMachine (trace m ++ [Spawn command args])%list (this m) in
    match spawn_throws env (trace m) command args with
    | Some e => (Thrown e, m')
    | None => (Returned tt, m')
    end.

(** [await request(options)] against one endpoint of the API. *)
Definition request {A : Type}
    (api : Trace -> Options -> Completion (Response A))
    (options : Options) : JS (Response A) :=
  fun m => (api (trace m) options,
            mkMachine (trace m ++ [Request options])%list (this m)).

(* ------------------------------------------------------------------- *)
(** *** Android related utils                                           *)
(* ------------------------------------------------------------------- *)

Definition emulatorCommand : string :=
  match ANDROID_HOME env with
  | Some home =>
      if truthy (VString home) then home ++ "/emulator/emulator"
      else "emulator"
  | None => "emulator"
  end.

(** [os.EOL] is the line feed on the systems the scripts run on. *)
Definition getEmulators : JS (list string) :=
  emulatorsOutput <- exec (emulatorCommand ++ " -list-avds") ;;
  ret (filter (fun name => negb (String.eqb name ""))
              (split newline emulatorsOutput)).

Definition launchEmulator (emulatorName : string) : JS unit :=
  spawn emulatorCommand ["@" ++ emulatorName].

(** The [error] of a launch result: a caught error or a message. *)
Inductive LaunchError : Type :=
| Caught (e : JsError)
| Message (s : string).

Record LaunchResult : Type := mkLaunchResult {
  success : bool;
  error : option LaunchError
}.

Definition tryLaunchEmulator : JS LaunchResult :=
  emulators <- getEmulators ;;
  match emulators with
  | first :: _ =>
      try_catch
        (launchEmulator first ;; ret (mkLaunchResult true None))
        (fun e => ret (mkLaunchResult false (Some (Caught e))))
  | [] =>
      ret (mkLaunchResult false
             (Some (Message "No emulators found as an output of `emulator -list-avds`")))
  end.

Definition hasConnectedDevice : JS bool :=
  out <- exec "adb devices | grep -v emulator" ;;
  let physicalDevices := slice1 (split newline (trim out)) in
  ret (0 <? Z.of_nat (length physicalDevices)).

Definition errorToString (e : JsError) : string :=
  match e with
  | Error msg => "Error: " ++ msg
  | TypeError msg => "TypeError: " ++ msg
  | ReferenceError msg => "ReferenceError: " ++ msg
  | Transport detail => "Error: " ++ detail
  end.

(** [`${result.error || ''}`] *)
Definition launchErrorText (e : option LaunchError) : string :=
  match e with
  | Some (Caught err) => errorToString err
  | Some (Message s) => s
  | None => ""
  end.

(** The condition of the [if] is the identifier [hasConnectedDevice], a
    function object, and not a call of it. *)
Definition maybeLaunchAndroidEmulator : JS unit :=
  if truthy (VFunction "hasConnectedDevice") then
    emit (ConsoleInfo "Already have a device connected. Skip launching emulator.")
  else
    result <- tryLaunchEmulator ;;
    if success result then
      emit (ConsoleInfo "Successfully launched emulator.")
    else
      emit (ConsoleError ("Failed to launch emulator. Reason: "
                          ++ launchErrorText (error result) ++ ".")) ;;
      emit (ConsoleWarn "Please launch an emulator manually or connect a device. Otherwise app may fail to launch.").

(* ------------------------------------------------------------------- *)
(** *** class CircleCIArtifacts                                         *)
(* ------------------------------------------------------------------- *)

Definition undefinedResolver : CircleCIArtifacts :=
  mkResolver None None None None.

(** [constructor(circleCIToken)]: the header object is stored in the
    property [circleCIToken]. *)
Definition constructor (token : string) : JS unit :=
  setThis (mkResolver (Some [("Circle-Token", token)]) None None None).

(** [constructor(circleCIToken, baseTmpPath)] of the later revision of the
    class, which also creates the directory. *)
Definition constructor_tmp (token tmpPath : string) : JS unit :=
  setThis (mkResolver (Some [("Circle-Token", token)]) None None (Some tmpPath)) ;;
  _ <- exec ("mkdir -p " ++ tmpPath) ;;
  ret tt.

Definition workflowNotReady (name status : string) : JsError :=
  Error ("The " ++ name ++ " workflow status is " ++ status
         ++ ". Please, wait for it to be finished before start testing or fix it").

(** The argument is [None] when the lookup that produced it found
    nothing ([undefined]). *)
Definition throwIfPendingOrUnsuccessfulWorkflow (workflow : option Workflow)
    : JS unit :=
  match workflow with
  | None => throw (cannot_read "status")
  | Some w =>
      if negb (String.eqb (wf_status w) "success") then
        throw (workflowNotReady (wf_name w) (wf_status w))
      else ret tt
  end.

(** [if (response.error) { throw new Error(error); }]: the identifier
    [error] is bound nowhere, so evaluating the argument throws. *)
Definition throwIfResponseError {A : Type} (response : Response A) : JS unit :=
  match resp_error response with
  | Some _ => throw (not_defined "error")
  | None => ret tt
  end.

Definition pipelineOptions (branchName : string) (r : CircleCIArtifacts) : Options :=
  mkOptions "GET"
    "https://circleci.com/api/v2/project/gh/facebook/react-native/pipeline"
    [("branch", branchName)]
    (circleCIHeaders r).

Definition getLastCircleCIPipelineID (branchName : string) : JS Pipeline :=
  r <- getThis ;;
  response <- request (pipeline_api env) (pipelineOptions branchName r) ;;
  throwIfResponseError response ;;
  match nth_error (resp_items response) 0 with
  | None => throw (cannot_read "id")
  | Some lastPipeline =>
      ret (mkPipeline (pipeline_id lastPipeline) (pipeline_number lastPipeline))
  end.

Definition workflowOptions (pipelineId : string) (r : CircleCIArtifacts) : Options :=
  mkOptions "GET"
    ("https://circleci.com/api/v2/pipeline/" ++ pipelineId ++ "/workflow")
    []
    (circleCIHeaders r).

Definition getSpecificWorkflow (pipelineId workflowName : string)
    : JS (option Workflow) :=
  r <- getThis ;;
  response <- request (workflow_api env) (workflowOptions pipelineId r) ;;
  throwIfResponseError response ;;
  ret (find (fun workflow => String.eqb (wf_name workflow) workflowName)
            (resp_items response)).

Definition getPackageAndReleaseWorkflow (pipelineId : string) :=
  getSpecificWorkflow pipelineId "package_and_publish_release_dryrun".

Definition getTestsWorkflow (pipelineId : string) :=
  getSpecificWorkflow pipelineId "tests".

Definition jobOptions (workflowId : string) (r : CircleCIArtifacts) : Options :=
  mkOptions "GET"
    ("https://circleci.com/api/v2/workflow/" ++ workflowId ++ "/job")
    []
    (circleCIHeaders r).

Definition getCircleCIJobs (workflowId : string) : JS (list Job) :=
  r <- getThis ;;
  response <- request (job_api env) (jobOptions workflowId r) ;;
  throwIfResponseError response ;;
  ret (resp_items response).

Definition artifactOptions (jobNumber : Z) (r : CircleCIArtifacts) : Options :=
  mkOptions "GET"
    ("https://circleci.com/api/v2/project/gh/facebook/react-native/"
     ++ ofNumber jobNumber ++ "/artifacts")
    []
    (circleCIHeaders r).

Definition getJobsArtifacts (jobNumber : Z) : JS (list Artifact) :=
  r <- getThis ;;
  response <- request (artifact_api env) (artifactOptions jobNumber r) ;;
  throwIfResponseError response ;;
  ret (resp_items response).

(** [await Promise.all([p1, p2])]; the world decides which of the two
    settles first. *)
Definition awaitAll {A : Type} (p1 p2 : Completion A) : JS (list A) :=
  fun m => await (Promise_all2 (second_settles_first env (trace m)) p1 p2) m.

(** [workflow.id] *)
Definition workflowId (workflow : option Workflow) : JS string :=
  match workflow with
  | None => throw (cannot_read "id")
  | Some w => ret (wf_id w)
  end.

(** The body of [initialize] after its first line, shared by the class
    and by the free-function variant. The two calls of
    [throwIfPendingOrUnsuccessfulWorkflow], an [async] function, are not
    awaited: their promises are dropped. The elements of [jobsPromises]
    are evaluated in order, each sending its request, before
    [Promise.all] joins them; when reading [testsWorkflow.id] throws, the
    first of the two promises is left without a handler. What the runtime
    does with a rejection nobody handles is outside the function: the
    process around it is [initialize_node]. *)
Definition resolveJobs (branchName : string) : JS unit :=
  pipeline <- getLastCircleCIPipelineID branchName ;;
  packageAndReleaseWorkflow <- getPackageAndReleaseWorkflow (pipeline_id pipeline) ;;
  check1 <- call_async (throwIfPendingOrUnsuccessfulWorkflow packageAndReleaseWorkflow) ;;
  drop check1 ;;
  testsWorkflow <- getTestsWorkflow (pipeline_id pipeline) ;;
  check2 <- call_async (throwIfPendingOrUnsuccessfulWorkflow testsWorkflow) ;;
  drop check2 ;;
  id1 <- workflowId packageAndReleaseWorkflow ;;
  jobs1 <- call_async (getCircleCIJobs id1) ;;
  id2 <- try_catch (workflowId testsWorkflow)
                   (fun e => drop jobs1 ;; throw e) ;;
  jobs2 <- call_async (getCircleCIJobs id2) ;;
  jobsResults <- awaitAll jobs1 jobs2 ;;
  r <- getThis ;;
  setThis (mkResolver (circleCIToken r) (circleCIHeaders r)
                      (Some (flat_map (fun jobs => jobs) jobsResults))
                      (baseTmpPath r)).

(** [initialize(branchName)] of the class. *)
Definition initialize (branchName : string) : JS unit :=
  emit (ConsoleInfo "Getting CircleCI infoes") ;;
  resolveJobs branchName.

Definition findUrlForJob (jobName artifactPath : string) : JS string :=
  r <- getThis ;;
  match jobs r with
  | None => throw (cannot_read "find")
  | Some allJobs =>
      match find (fun j => String.eqb (job_name j) jobName) allJobs with
      | None => throw (cannot_read "job_number")
      | Some job =>
          artifacts <- getJobsArtifacts (job_number job) ;;
          match find (fun artifact => indexOf (art_path artifact) artifactPath >? -1)
                     artifacts with
          | None => throw (cannot_read "url")
          | Some artifact => ret (art_url artifact)
          end
      end
  end.

Definition artifactURLHermesDebug : JS string :=
  findUrlForJob "build_hermes_macos-Debug" "hermes-ios-debug.tar.gz".

Definition artifactURLForMavenLocal : JS string :=
  findUrlForJob "build_and_publish_npm_package-2" "maven-local.zip".

Definition artifactURLForPackagedReactNative : JS string :=
  findUrlForJob "build_and_publish_npm_package-2" "react-native-1000.0.0-".

Definition artifactURLForHermesRNTesterAPK : JS string :=
  emulatorArch <- exec "adb shell getprop ro.product.cpu.abi" ;;
  findUrlForJob "test_android"
    ("rntester-apk/hermes/release/app-hermes-" ++ emulatorArch ++ "-release.apk").

Definition artifactURLForJSCRNTesterAPK : JS string :=
  findUrlForJob "test_android"
    "rntester-apk/jsc/release/app-jsc-arm64-v8a-release.apk".

Definition rmCommand (destination : string) : string := "rm -rf " ++ destination.

Definition curlCommand (artifactURL destination : string) : string :=
  "curl " ++ artifactURL ++ " -Lo " ++ destination.

Definition downloadArtifact (artifactURL destination : string) : JS unit :=
  _ <- exec (rmCommand destination) ;;
  _ <- exec (curlCommand artifactURL destination) ;;
  ret tt.

(* ------------------------------------------------------------------- *)
(** *** The free-function variant                                       *)
(* ------------------------------------------------------------------- *)

(** Its helpers are those of the class, reading the module variables
    [circleCIHeaders] and [jobs] where the class reads [this]; its
    [initialize] assigns the header object to the variable the helpers
    read before it does anything else. *)
Definition initialize_free (token baseTempPath branchName : string) : JS unit :=
  emit (ConsoleInfo "Getting CircleCI infoes") ;;
  r <- getThis ;;
  setThis (mkResolver (circleCIToken r) (Some [("Circle-Token", token)])
                      (jobs r) (Some baseTempPath)) ;;
  _ <- exec ("mkdir -p " ++ baseTempPath) ;;
  resolveJobs branchName.

End Scripts.

(* ===================================================================== *)
(** ** More of the scripts: the packager, later revisions, callers        *)
(* ===================================================================== *)

(** How many times the character [c] occurs in [s]. *)
Fixpoint count_char (c : ascii) (s : string) : nat :=
  match s with
  | EmptyString => 0
  | String d s' => (if Ascii.eqb d c then 1 else 0) + count_char c s'
  end.

(** Every character of [s] passes the test [f]. *)
Fixpoint all_chars (f : ascii -> bool) (s : string) : bool :=
  match s with
  | EmptyString => true
  | String d s' => f d && all_chars f s'
  end.

Section Callers.

Variable env : Env.

(** [path.join] of Node, which the scripts take from the [path] module. *)
Variable join : string -> string -> string.

(* ------------------------------------------------------------------- *)
(** *** Metro related utils                                             *)
(* ------------------------------------------------------------------- *)

Definition statusCommand (packagerPort : string) : string :=
  "curl http://localhost:" ++ packagerPort ++ "/status".

(** [isPackagerRunning(packagerPort)] *)
Definition isPackagerRunning (packagerPort : string) : JS string :=
  try_catch
    (status <- exec env (statusCommand packagerPort) ;;
     ret (if String.eqb status "packager-status:running"
          then "running" else "unrecognized"))
    (fun _error => ret "not_running").

(** The default of the parameter: [process.env.RCT_METRO_PORT || '8081']. *)
Definition defaultPackagerPort (RCT_METRO_PORT : option string) : string :=
  match RCT_METRO_PORT with
  | Some port => if truthy (VString port) then port else "8081"
  | None => "8081"
  end.

Definition killCommand : string :=
  "lsof -i :8081 | grep LISTEN | /usr/bin/awk '{print $2}' | xargs kill".

(** [checkPackagerRunning()], which calls [isPackagerRunning()] with the
    default port. *)
Definition checkPackagerRunning (RCT_METRO_PORT : option string) : JS unit :=
  status <- isPackagerRunning (defaultPackagerPort RCT_METRO_PORT) ;;
  if String.eqb status "running" then
    _ <- exec env killCommand ;;
    ret tt
  else ret tt.

(* ------------------------------------------------------------------- *)
(** *** The later revision of the class                                 *)
(* ------------------------------------------------------------------- *)

(** [artifactURLForHermesRNTesterAPK] of the later revision, which trims
    what [adb] printed. *)
Definition artifactURLForHermesRNTesterAPK_trimmed : JS string :=
  out <- exec env "adb shell getprop ro.product.cpu.abi" ;;
  let emulatorArch := trim out in
  findUrlForJob env "test_android"
    ("rntester-apk/hermes/release/app-hermes-" ++ emulatorArch ++ "-release.apk").

Definition lineFeed : string := String newline EmptyString.

Definition doubleQuote : string := String (ascii_of_nat 34) EmptyString.

(** [path.join(circleCIArtifacts.baseTmpPath, segment)]: [path.join]
    throws on an argument that is no string. *)
Definition joinBaseTmpPath (segment : string) : JS string :=
  r <- getThis ;;
  match baseTmpPath r with
  | None =>
      throw (TypeError
               ("The " ++ doubleQuote ++ "path" ++ doubleQuote
                ++ " argument must be of type string. Received undefined"))
  | Some base => ret (join base segment)
  end.

(** [downloadArtifactsFromCircleCI(circleCIArtifacts, mavenLocalPath,
    localNodeTGZPath)]; the object is the resolver of the machine. *)
Definition downloadArtifactsFromCircleCI (mavenLocalPath localNodeTGZPath : string)
    : JS string :=
  mavenLocalURL <- artifactURLForMavenLocal env ;;
  packagedReactNativeURL <- artifactURLForPackagedReactNative env ;;
  hermesURL <- artifactURLHermesDebug env ;;
  packagedReactNativePath <- joinBaseTmpPath "/packaged-react-native.tar.gz" ;;
  hermesPath <- joinBaseTmpPath "hermes-ios-debug.tar.gz" ;;
  emit (ConsoleInfo "[Download] Maven Local Artifacts") ;;
  downloadArtifact env mavenLocalURL mavenLocalPath ;;
  emit (ConsoleInfo "[Download] Packaged React Native") ;;
  downloadArtifact env packagedReactNativeURL packagedReactNativePath ;;
  emit (ConsoleInfo "[Download] Hermes") ;;
  downloadArtifact env hermesURL hermesPath ;;
  emit (ConsoleLog (">>> Copying the packaged version of react native" ++ lineFeed
                    ++ "from: '" ++ packagedReactNativePath ++ lineFeed
                    ++ "  to: " ++ localNodeTGZPath ++ "'")) ;;
  _ <- exec env ("cp " ++ packagedReactNativePath ++ " " ++ localNodeTGZPath) ;;
  ret hermesPath.

(** [setupCircleCIArtifacts(circleciToken, branchName)] of the utilities:
    [null] without a token, the initialized resolver otherwise. *)
Definition setupCircleCIArtifacts (circleciToken : option string)
    (branchName : string) : JS (option CircleCIArtifacts) :=
  match circleciToken with
  | None => ret None
  | Some token =>
      if negb (truthy (VString token)) then ret None
      else
        constructor_tmp env token "/tmp/react-native-tmp" ;;
        initialize env branchName ;;
        r <- getThis ;;
        ret (Some r)
  end.

(** [setupCircleCIArtifacts(circleciToken)] of test-e2e-local.js: the same
    body, in a scope that binds no [branchName], so that evaluating the
    argument of [initialize] throws. *)
Definition setupCircleCIArtifacts_script (circleciToken : option string)
    : JS (option CircleCIArtifacts) :=
  match circleciToken with
  | None => ret None
  | Some token =>
      if negb (truthy (VString token)) then ret None
      else
        constructor_tmp env token "/tmp/react-native-tmp" ;;
        branchName <- throw (not_defined "branchName") ;;
        initialize env branchName ;;
        r <- getThis ;;
        ret (Some r)
  end.

End Callers.

(* ===================================================================== *)
(** ** The process, as Node runs it                                       *)
(* ===================================================================== *)

(** The process: the machine, and the errors of the promises that were
    rejected with no handler attached and that the runtime has not looked
    at yet, in the order of their rejection. *)
Record Process : Type := mkProcess {
  machine : Machine;
  unhandled : list JsError
}.

(** How a stretch of the program ends for the process: it settles, with a
    value or with an error that its caller may catch, or the process
    exits (the error printed, exit code 1), which nothing catches. *)
Inductive Ending (A : Type) : Type :=
| Settled (c : Completion A)
| Exited (e : JsError).
Arguments Settled {A} c.
Arguments Exited {A} e.

Definition Node (A : Type) : Type := Process -> Ending A * Process.

(** The event loop gets control back. The scripts install no handler for
    unhandled rejections and pass no flag, so that Node (15 and later)
    ends the process with the first rejection it finds unhandled. *)
Definition tick {A : Type} (c : Completion A) : Node A :=
  fun s =>
    match unhandled s with
    | e :: _ => (Exited e, s)
    | [] => (Settled c, s)
    end.

(** A stretch of code without [await]. *)
Definition sync {A : Type} (c : JS A) : Node A :=
  fun s => let (r, m') := c (machine s) in (Settled r, mkProcess m' (unhandled s)).

(** [await c] where [c] waits for the outside world: what [c] does before
    waiting is done (its request is sent), the event loop runs, and then
    [c] completes. *)
Definition awaited {A : Type} (c : JS A) : Node A :=
  fun s => let (r, m') := c (machine s) in tick r (mkProcess m' (unhandled s)).

(** A call of an [async] function that has no [await] in it, the promise
    of which is dropped: the promise is settled when the call returns, and
    its rejection has no handler. The caller goes on. *)
Definition notAwaited {A : Type} (c : JS A) : Node unit :=
  fun s =>
    let (r, m') := c (machine s) in
    (Settled (Returned tt),
     mkProcess m' match r with
                  | Returned _ => unhandled s
                  | Thrown e => (unhandled s ++ [e])%list
                  end).

Definition andThen {A B : Type} (c : Node A) (k : A -> Node B) : Node B :=
  fun s =>
    match c s with
    | (Settled (Returned a), s') => k a s'
    | (Settled (Thrown e), s') => (Settled (Thrown e), s')
    | (Exited e, s') => (Exited e, s')
    end.

(** Whatever the caller does with the completion, the event loop gets
    control after it. *)
Definition toTheLoop {A : Type} (c : Node A) : Node A :=
  fun s =>
    match c s with
    | (Settled r, s') => tick r s'
    | (Exited e, s') => (Exited e, s')
    end.

Declare Scope node_scope.
Delimit Scope node_scope with node.
Notation "x <-- c ;; k" := (andThen c (fun x => k))
  (at level 100, c at next level, right associativity) : node_scope.

Section NodeProcess.

Variable env : Env.

(** The array [jobsPromises] (l.143 to l.146): both requests are sent, one
    after the other, and neither is waited for. Reading [id] throws only
    for a workflow that was not found, for which the check before it was
    rejected: the process ends before the promise of the first request
    settles. *)
Definition jobsPromises (packageAndReleaseWorkflow testsWorkflow : option Workflow)
    : JS (Completion (list Job) * Completion (list Job)) :=
  id1 <- workflowId packageAndReleaseWorkflow ;;
  jobs1 <- call_async (getCircleCIJobs env id1) ;;
  id2 <- workflowId testsWorkflow ;;
  jobs2 <- call_async (getCircleCIJobs env id2) ;;
  ret (jobs1, jobs2).

(** [this.jobs = jobsResults.flatMap(jobs => jobs)] *)
Definition assignJobs (jobsResults : list (list Job)) : JS unit :=
  r <- getThis ;;
  setThis (mkResolver (circleCIToken r) (circleCIHeaders r)
                      (Some (flat_map (fun jobs => jobs) jobsResults))
                      (baseTmpPath r)).

(** The statements of [initialize(branchName)] of the class (l.134 to
    l.151), cut where they wait for the outside world. Each [await] of a
    request helper and the [await Promise.all] hand control to the event
    loop; the statements between two of them run in one stretch. The two
    calls of [throwIfPendingOrUnsuccessfulWorkflow] (l.140 and l.142) are
    not awaited. *)
Definition initialize_steps (branchName : string) : Node unit :=
  (_ <-- sync (emit (ConsoleInfo "Getting CircleCI infoes")) ;;
   pipeline <-- awaited (getLastCircleCIPipelineID env branchName) ;;
   packageAndReleaseWorkflow <--
     awaited (getPackageAndReleaseWorkflow env (pipeline_id pipeline)) ;;
   _ <-- notAwaited (throwIfPendingOrUnsuccessfulWorkflow packageAndReleaseWorkflow) ;;
   testsWorkflow <-- awaited (getTestsWorkflow env (pipeline_id pipeline)) ;;
   _ <-- notAwaited (throwIfPendingOrUnsuccessfulWorkflow testsWorkflow) ;;
   promises <-- sync (jobsPromises packageAndReleaseWorkflow testsWorkflow) ;;
   jobsResults <-- awaited (awaitAll env (fst promises) (snd promises)) ;;
   sync (assignJobs jobsResults))%node.

(** [initialize(branchName)] as the process runs it, from a machine with
    no rejection pending: how it ends, and the machine it leaves. *)
Definition initialize_node (branchName : string) (m : Machine)
    : Ending unit * Machine :=
  let (ending, s) := toTheLoop (initialize_steps branchName) (mkProcess m []) in
  (ending, machine s).

End NodeProcess.

(** What a check leaves unhandled: nothing when the workflow is there and
    successful, its error otherwise. *)
Definition checkError (workflow : option Workflow) : list JsError :=
  match workflow with
  | None => [cannot_read "status"]
  | Some w =>
      if String.eqb (wf_status w) "success" then []
      else [workflowNotReady (wf_name w) (wf_status w)]
  end.

(** [grows n]: a stretch of the process that settles has added to the
    rejections left unhandled, if anything. *)
Definition grows {A : Type} (n : Node A) : Prop :=
  forall s r s', n s = (Settled r, s') ->
    exists more, unhandled s' = (unhandled s ++ more)%list.

(** [survives c n]: whenever the stretch [n] of the process settles with
    no rejection left unhandled, the computation [c] completes the same
    way and leaves the same machine. *)
Definition survives {A : Type} (c : JS A) (n : Node A) : Prop :=
  forall s r s', n s = (Settled r, s') -> unhandled s' = [] ->
    c (machine s) = (r, machine s').

(** No command is run and no process started by the event. *)
Definition quiet (ev : Event) : Prop :=
  match ev with
  | Exec _ | Spawn _ _ => False
  | _ => True
  end.

(** The event is no request. *)
Definition offline (ev : Event) : Prop :=
  match ev with
  | Request _ => False
  | _ => True
  end.

(* ===================================================================== *)
(** ** The file system behind [exec]                                      *)
(* ===================================================================== *)

Section FileSystem.

(** The scripts never look at the file system themselves: they change it
    through the commands they hand to the shell. [shell] is what a command
    does to it. *)
Variable FS : Type.
Variable shell : string -> FS -> FS.

Definition step (fs : FS) (ev : Event) : FS :=
  match ev with
  | Exec command => shell command fs
  | _ => fs
  end.

(** The file system after the commands of a trace ran, in order. *)
Definition replay (t : Trace) (fs : FS) : FS := fold_left step t fs.

End FileSystem.

(* ===================================================================== *)
(** ** Concrete worlds                                                    *)
(* ===================================================================== *)

Module Stub.

(** An API that answers every request the same way, whatever came
    before: the lists of pipelines and workflows are fixed, jobs and
    artifacts are looked up by the URL of the request. *)
Definition api (pipelines : list Pipeline) (workflows : list Workflow)
    (jobsOf : string -> list Job) (artifactsOf : string -> list Artifact)
    (adb : string) : Env :=
  mkEnv None (fun _ _ => adb) (fun _ _ _ => None)
    (fun _ _ => Returned (mkResponse None pipelines))
    (fun _ _ => Returned (mkResponse None workflows))
    (fun _ o => Returned (mkResponse None (jobsOf (url o))))
    (fun _ o => Returned (mkResponse None (artifactsOf (url o))))
    (fun _ => false).

Definition jobsOf (u : string) : list Job :=
  if String.eqb u "https://circleci.com/api/v2/workflow/w1/job"
  then [mkJob "build_hermes_macos-Debug" 7]
  else if String.eqb u "https://circleci.com/api/v2/workflow/w2/job"
  then [mkJob "test_android" 9]
  else [].

Definition artifactsOf (u : string) : list Artifact :=
  if String.eqb u "https://circleci.com/api/v2/project/gh/facebook/react-native/7/artifacts"
  then [mkArtifact "tmp/hermes/osx-bin/hermesc" "https://ci/a0";
        mkArtifact "tmp/hermes/hermes-ios-debug.tar.gz" "https://ci/a1";
        mkArtifact "tmp/copy/hermes-ios-debug.tar.gz.sha" "https://ci/a2"]
  else [].

(** Branch with pipelines 42 and 41, whose two workflows have the given
    statuses. *)
Definition world (releaseStatus testsStatus : string) : Env :=
  api [mkPipeline "p1" 42; mkPipeline "p0" 41]
      [mkWorkflow "w1" "package_and_publish_release_dryrun" releaseStatus;
       mkWorkflow "w2" "tests" testsStatus]
      jobsOf artifactsOf "List of devices attached".


(** A branch without pipelines. *)
Definition emptyBranch : Env :=
  api [] [] jobsOf artifactsOf "List of devices attached".

(** Every endpoint answers with an [error] property. *)
Definition failing (e : JsError) : Env :=
  mkEnv None (fun _ _ => "") (fun _ _ _ => None)
    (fun _ _ => Returned (mkResponse (Some e) []))
    (fun _ _ => Returned (mkResponse (Some e) []))
    (fun _ _ => Returned (mkResponse (Some e) []))
    (fun _ _ => Returned (mkResponse (Some e) []))
    (fun _ => false).

Definition fresh : Machine := mkMachine [] undefinedResolver.

(** A resolver as [constructor] and a successful [initialize] leave it. *)
Definition ready : Machine :=
  mkMachine []
    (mkResolver (Some [("Circle-Token", "token")]) None
       (Some [mkJob "build_hermes_macos-Debug" 7; mkJob "test_android" 9])
       None).

(** A file system of paths and contents, and a shell that knows the two
    commands of [downloadArtifact] for one destination: [rm -rf] deletes
    the path, [curl] writes what it fetched where nothing is and keeps
    what is there otherwise. *)
Definition Files : Type := string -> option string.

Definition shell (command : string) (fs : Files) : Files :=
  if String.eqb command "rm -rf /tmp/hermes-ios-debug.tar.gz" then
    fun p => if String.eqb p "/tmp/hermes-ios-debug.tar.gz" then None else fs p
  else if String.eqb command
            "curl https://ci/a1 -Lo /tmp/hermes-ios-debug.tar.gz" then
    fun p => if String.eqb p "/tmp/hermes-ios-debug.tar.gz" then
               match fs p with
               | None => Some "fetched"
               | Some old => Some old
               end
             else fs p
  else fs.

Definition stale : Files :=
  fun p => if String.eqb p "/tmp/hermes-ios-debug.tar.gz" then Some "old" else None.

End Stub.

(* ===================================================================== *)
(** ** Reading the helpers as equations                                   *)
(* ===================================================================== *)

(** The machine after [options] were sent. *)
Definition sent (m : Machine) (options : Options) : Machine :=
  mkMachine (trace m ++ [Request options])%list (this m).

(** How a request helper completes, given how the request itself
    completed and what the helper makes of the items. *)
Definition settle {A B : Type} (answer : Completion (Response A))
    (k : list A -> Completion B) : Completion B :=
  match answer with
  | Thrown e => Thrown e
  | Returned response =>
      match resp_error response with
      | Some _ => Thrown (not_defined "error")
      | None => k (resp_items response)
      end
  end.

Definition firstPipeline (items : list Pipeline) : Completion Pipeline :=
  match nth_error items 0 with
  | None => Thrown (cannot_read "id")
  | Some p => Returned (mkPipeline (pipeline_id p) (pipeline_number p))
  end.

Definition named (name : string) (workflow : Workflow) : bool :=
  String.eqb (wf_name workflow) name.


(** Lines 143 to 150 of [initialize], what it does with the two workflows
    it looked up, as a computation of its own. *)
Definition jobsOfWorkflows (env : Env)
    (packageAndReleaseWorkflow testsWorkflow : option Workflow) : JS unit :=
  id1 <- workflowId packageAndReleaseWorkflow ;;
  jobs1 <- call_async (getCircleCIJobs env id1) ;;
  id2 <- try_catch (workflowId testsWorkflow)
                   (fun e => drop jobs1 ;; throw e) ;;
  jobs2 <- call_async (getCircleCIJobs env id2) ;;
  jobsResults <- awaitAll env jobs1 jobs2 ;;
  r <- getThis ;;
  setThis (mkResolver (circleCIToken r) (circleCIHeaders r)
                      (Some (flat_map (fun jobs => jobs) jobsResults))
                      (baseTmpPath r)).

(** The machine once [initialize] has printed its first line. *)
Definition started (m : Machine) : Machine :=
  mkMachine (trace m ++ [ConsoleInfo "Getting CircleCI infoes"])%list (this m).

(** [preserves P I c]: run from a machine whose resolver satisfies [I], the
    computation [c] only appends events that satisfy [P], and leaves a
    resolver that satisfies [I], however it completes. *)
Definition preserves (P : Event -> Prop) (I : CircleCIArtifacts -> Prop)
    {A : Type} (c : JS A) : Prop :=
  forall m, I (this m) ->
    exists t, trace (snd (c m)) = (trace m ++ t)%list
              /\ Forall P t /\ I (this (snd (c m))).

Definition anyEvent (ev : Event) : Prop := True.
Definition anyResolver (r : CircleCIArtifacts) : Prop := True.

(** The event is no request, or a request with the headers [h]. *)
Definition carries (h : option Headers) (ev : Event) : Prop :=
  match ev with
  | Request options => headers options = h
  | _ => True
  end.

(** The helpers of the resolver [r] read [h] as their headers. *)
Definition reads (h : option Headers) (r : CircleCIArtifacts) : Prop :=
  circleCIHeaders r = h.

(* ===================================================================== *)
(** ** Notions for the rest of the scripts                                *)
(* ===================================================================== *)

Definition nonEmpty (name : string) : bool := negb (String.eqb name "").

(** The string holds nothing but line feeds. *)
Definition onlyLineFeeds (s : string) : bool :=
  all_chars (fun c => Ascii.eqb c newline) s.

(** A character that [trim] keeps. *)
Definition isInk (c : ascii) : bool := negb (is_space c).

(** The path fragment of the Hermes APK for an architecture. *)
Definition apkFragment (arch : string) : string :=
  ("rntester-apk/hermes/release/app-hermes-" ++ arch ++ "-release.apk")%string.

(** [throws_within P I c]: when [c], run from a resolver that satisfies
    [I], throws, it has only appended events that satisfy [P] and the
    resolver still satisfies [I]. *)
Definition throws_within (P : Event -> Prop) (I : CircleCIArtifacts -> Prop)
    {A : Type} (c : JS A) : Prop :=
  forall m, I (this m) ->
    forall e m', c m = (Thrown e, m') ->
      exists t, trace m' = (trace m ++ t)%list /\ Forall P t /\ I (this m').

(** [r] is [r0] but for its jobs. *)
Definition sameButJobs (r0 r : CircleCIArtifacts) : Prop :=
  circleCIToken r = circleCIToken r0
  /\ circleCIHeaders r = circleCIHeaders r0
  /\ baseTmpPath r = baseTmpPath r0.

Module Project.

(** A project whose pipeline has the three jobs the scripts look
    artifacts up in, and whose shell prints [printed] for every command. *)
Definition jobsOf (u : string) : list Job :=
  if String.eqb u "https://circleci.com/api/v2/workflow/w1/job"
  then [mkJob "build_hermes_macos-Debug" 7; mkJob "build_and_publish_npm_package-2" 8]
  else if String.eqb u "https://circleci.com/api/v2/workflow/w2/job"
  then [mkJob "test_android" 9]
  else [].

Definition artifactsOf (u : string) : list Artifact :=
  if String.eqb u "https://circleci.com/api/v2/project/gh/facebook/react-native/7/artifacts"
  then [mkArtifact "tmp/hermes/hermes-ios-debug.tar.gz" "https://ci/hermes"]
  else if String.eqb u "https://circleci.com/api/v2/project/gh/facebook/react-native/8/artifacts"
  then [mkArtifact "tmp/maven-local.zip" "https://ci/maven";
        mkArtifact "build/react-native-1000.0.0-abc.tgz" "https://ci/package"]
  else if String.eqb u "https://circleci.com/api/v2/project/gh/facebook/react-native/9/artifacts"
  then [mkArtifact "rntester-apk/hermes/release/app-hermes-arm64-v8a-release.apk"
          "https://ci/apk"]
  else [].

Definition world (printed : string) : Env :=
  Stub.api [mkPipeline "p1" 42]
    [mkWorkflow "w1" "package_and_publish_release_dryrun" "success";
     mkWorkflow "w2" "tests" "success"]
    jobsOf artifactsOf printed.

Definition ready : Machine :=
  mkMachine []
    (mkResolver (Some [("Circle-Token", "token")]) None
       (Some [mkJob "build_hermes_macos-Debug" 7;
              mkJob "build_and_publish_npm_package-2" 8;
              mkJob "test_android" 9])
       (Some "/tmp/react-native-tmp")).

(** What [adb shell getprop ro.product.cpu.abi] prints: the architecture
    and a line feed. *)
Definition abi : string := ("arm64-v8a" ++ lineFeed)%string.

(** What [emulator -list-avds] prints for two devices. *)
Definition avds : string :=
  ("Pixel_6_API_33" ++ lineFeed ++ "Nexus_5X" ++ lineFeed)%string.

(** A stand-in for [path.join] on two plain segments. *)
Definition join (a b : string) : string := (a ++ "/" ++ b)%string.

(** An API whose every request is rejected by the transport. *)
Definition unreachable (e : JsError) : Env :=
  mkEnv None (fun _ _ => "") (fun _ _ _ => None)
    (fun _ _ => Thrown e) (fun _ _ => Thrown e)
    (fun _ _ => Thrown e) (fun _ _ => Thrown e)
    (fun _ => false).

End Project.

(* ===================================================================== *)
(** ** Facts about the string functions                                   *)
(* ===================================================================== *)

Lemma startsWith_spec (s p : string) :
  startsWith s p = true <-> exists post, s = p ++ post.
Proof.
  revert s; induction p as [|c p IH]; intros s; simpl.
  - split; [intros _; now exists s | reflexivity].
  - destruct s as [|d s].
    + split; [discriminate | intros [post H]; discriminate].
    + rewrite andb_true_iff, Ascii.eqb_eq, IH. split.
      * intros [-> [post ->]]. now exists post.
      * intros [post H]. injection H as -> ->. split; [reflexivity | now exists post].
Qed.

Lemma indexOf_from_range (k : Z) (s p : string) :
  indexOf_from k s p = -1 \/ k <= indexOf_from k s p.
Proof.
  revert k; induction s as [|c s IH]; intros k; simpl.
  - destruct (startsWith "" p); [right; lia | now left].
  - destruct (startsWith (String c s) p); [right; lia|].
    destruct (IH (k + 1)) as [H|H]; [now left | right; lia].
Qed.

Lemma indexOf_from_found (k : Z) (s p : string) :
  0 <= k -> ((indexOf_from k s p >? -1) = true <-> contains s p).
Proof.
  revert k; induction s as [|c s IH]; intros k Hk; simpl.
  - destruct (startsWith "" p) eqn:E.
    + split; [intros _ | intros _; apply Z.gtb_lt; lia].
      apply startsWith_spec in E. destruct E as [post E].
      exists "", post. exact E.
    + split; [discriminate|]. intros [pre [post H]].
      destruct pre; [|discriminate]. simpl in H.
      assert (startsWith "" p = true) by (apply startsWith_spec; now exists post).
      congruence.
  - destruct (startsWith (String c s) p) eqn:E.
    + split; [intros _ | intros _; apply Z.gtb_lt; lia].
      apply startsWith_spec in E. destruct E as [post E].
      exists "", post. exact E.
    + rewrite (IH (k + 1)) by lia. split.
      * intros [pre [post ->]]. now exists (String c pre), post.
      * intros [pre [post H]]. destruct pre as [|d pre].
        -- simpl in H.
           assert (startsWith (String c s) p = true)
             by (apply startsWith_spec; now exists post).
           congruence.
        -- simpl in H. injection H as _ ->. now exists pre, post.
Qed.

(** [path.indexOf(fragment) > -1] holds exactly when [fragment] is a
    substring of [path]. *)
Lemma indexOf_contains (s p : string) :
  (indexOf s p >? -1) = true <-> contains s p.
Proof. unfold indexOf. apply indexOf_from_found. lia. Qed.

Lemma indexOf_not_contains (s p : string) :
  (indexOf s p >? -1) = false <-> ~ contains s p.
Proof.
  rewrite <- indexOf_contains.
  destruct (indexOf s p >? -1); intuition congruence.
Qed.

(** [find] returns the first element that satisfies the test. *)
Lemma find_first {A : Type} (f : A -> bool) (before after : list A) (a : A) :
  (forall x, In x before -> f x = false) -> f a = true ->
  find f (before ++ a :: after) = Some a.
Proof.
  intros Hb Ha. induction before as [|b before IH]; simpl.
  - now rewrite Ha.
  - rewrite (Hb b) by now left. apply IH. intros x Hx. apply Hb. now right.
Qed.

Lemma find_none_iff {A : Type} (f : A -> bool) (l : list A) :
  find f l = None <-> forall x, In x l -> f x = false.
Proof.
  split.
  - apply find_none.
  - intros H. induction l as [|a l IH]; simpl; [reflexivity|].
    rewrite (H a) by now left. apply IH. intros x Hx. apply H. now right.
Qed.

Local Open Scope list_scope.

Ltac run_helper :=
  intros;
  repeat match goal with
         | |- context [match ?x with _ => _ end] => destruct x eqn:?; simpl
         | _ => progress (cbv [bind getThis request throwIfResponseError ret throw
                               settle sent firstPipeline named]; simpl)
         end;
  try reflexivity; try congruence.

Lemma getLastCircleCIPipelineID_run (env : Env) (branchName : string) (m : Machine) :
  getLastCircleCIPipelineID env branchName m =
    (settle (pipeline_api env (trace m) (pipelineOptions branchName (this m)))
            firstPipeline,
     sent m (pipelineOptions branchName (this m))).
Proof. unfold getLastCircleCIPipelineID. run_helper. Qed.

Lemma getSpecificWorkflow_run (env : Env) (pipelineId name : string) (m : Machine) :
  getSpecificWorkflow env pipelineId name m =
    (settle (workflow_api env (trace m) (workflowOptions pipelineId (this m)))
            (fun items => Returned (find (named name) items)),
     sent m (workflowOptions pipelineId (this m))).
Proof. unfold getSpecificWorkflow. run_helper. Qed.

Lemma getCircleCIJobs_run (env : Env) (workflowId : string) (m : Machine) :
  getCircleCIJobs env workflowId m =
    (settle (job_api env (trace m) (jobOptions workflowId (this m)))
            (fun items => Returned items),
     sent m (jobOptions workflowId (this m))).
Proof. unfold getCircleCIJobs. run_helper. Qed.

Lemma getJobsArtifacts_run (env : Env) (jobNumber : Z) (m : Machine) :
  getJobsArtifacts env jobNumber m =
    (settle (artifact_api env (trace m) (artifactOptions jobNumber (this m)))
            (fun items => Returned items),
     sent m (artifactOptions jobNumber (this m))).
Proof. unfold getJobsArtifacts. run_helper. Qed.

Lemma settle_error {A B : Type} (response : Response A)
    (k : list A -> Completion B) :
  resp_error response <> None ->
  settle (Returned response) k = Thrown (ReferenceError "error is not defined").
Proof.
  intros H. unfold settle. destruct (resp_error response); [reflexivity | congruence].
Qed.

Lemma settle_items {A B : Type} (items : list A) (k : list A -> Completion B) :
  settle (Returned (mkResponse None items)) k = k items.
Proof. reflexivity. Qed.

(* ===================================================================== *)
(** ** The emulator helper                                                *)
(* ===================================================================== *)

(** There are worlds in which [hasConnectedDevice()] would answer [false]:
    [adb devices] printing its header line only. *)
Example hasConnectedDevice_false :
  fst (hasConnectedDevice (Stub.world "success" "success") Stub.fresh)
  = Returned false.
Proof. reflexivity. Qed.

(** C10: whatever the devices and emulators are, [maybeLaunchAndroidEmulator]
    takes the branch of the connected device: it prints the message of that
    branch and returns, having run no command and started no process. The
    condition it tests is the function [hasConnectedDevice] itself, which is
    truthy, and not the result of calling it. *)
Theorem maybeLaunchAndroidEmulator_always_skips (env : Env) (m : Machine) :
  truthy (VFunction "hasConnectedDevice") = true /\
  maybeLaunchAndroidEmulator env m =
    (Returned tt,
     mkMachine
       (trace m ++ [ConsoleInfo "Already have a device connected. Skip launching emulator."])
       (this m)).
Proof. split; reflexivity. Qed.

(* ===================================================================== *)
(** ** Downloads                                                          *)
(* ===================================================================== *)

(** C9: [downloadArtifact] runs exactly two commands, [rm -rf] of the
    destination first and [curl] of the URL to the destination second.
    Hence, with a shell whose [rm -rf] leaves nothing at the destination and
    whose [curl] writes what it fetched to a destination where nothing is,
    the destination holds what was fetched and nothing else after the call,
    whatever it held before. *)
Theorem downloadArtifact_remove_then_fetch
    (FS : Type) (shell : string -> FS -> FS) (read : FS -> string -> option string)
    (env : Env) (artifactURL destination fetched : string)
    (m : Machine) (fs : FS) :
  (forall fs0, read (shell (rmCommand destination) fs0) destination = None) ->
  (forall fs0, read fs0 destination = None ->
               read (shell (curlCommand artifactURL destination) fs0) destination
               = Some fetched) ->
  let commands := [Exec ("rm -rf " ++ destination)%string;
                   Exec ("curl " ++ artifactURL ++ " -Lo " ++ destination)%string] in
  downloadArtifact env artifactURL destination m
    = (Returned tt, mkMachine (trace m ++ commands) (this m))
  /\ read (replay shell commands fs) destination = Some fetched.
Proof.
  intros Hrm Hcurl commands. split.
  - unfold downloadArtifact, bind, exec, ret; simpl.
    now rewrite <- app_assoc.
  - unfold commands, replay; simpl. apply Hcurl, Hrm.
Qed.

Lemma downloadArtifact_remove_then_fetch_witness :
  downloadArtifact (Stub.world "success" "success")
      "https://ci/a1" "/tmp/hermes-ios-debug.tar.gz" Stub.ready
    = (Returned tt,
       mkMachine [Exec "rm -rf /tmp/hermes-ios-debug.tar.gz";
                  Exec "curl https://ci/a1 -Lo /tmp/hermes-ios-debug.tar.gz"]
                 (this Stub.ready))
  /\ replay Stub.shell
       [Exec "rm -rf /tmp/hermes-ios-debug.tar.gz";
        Exec "curl https://ci/a1 -Lo /tmp/hermes-ios-debug.tar.gz"]
       Stub.stale "/tmp/hermes-ios-debug.tar.gz" = Some "fetched".
Proof.
  apply (@downloadArtifact_remove_then_fetch
           Stub.Files Stub.shell (fun fs p => fs p)
           (Stub.world "success" "success")
           "https://ci/a1" "/tmp/hermes-ios-debug.tar.gz" "fetched"
           Stub.ready Stub.stale).
  - intros fs0. reflexivity.
  - intros fs0 H. unfold Stub.shell. simpl. now rewrite H.
Defined.

(* ===================================================================== *)
(** ** The request helpers                                                *)
(* ===================================================================== *)

(** C8: in each of the four request helpers (pipelines, workflows, jobs,
    artifacts), a response with an [error] property makes the helper fail
    with the [ReferenceError] of the unbound identifier [error]: the same
    failure whatever the error of the response was, which therefore is not
    carried by it. *)
Theorem response_error_detail_is_lost (env : Env) (m : Machine) :
  (forall branchName response,
      pipeline_api env (trace m) (pipelineOptions branchName (this m))
        = Returned response ->
      resp_error response <> None ->
      fst (getLastCircleCIPipelineID env branchName m)
        = Thrown (ReferenceError "error is not defined"))
  /\ (forall pipelineId name response,
      workflow_api env (trace m) (workflowOptions pipelineId (this m))
        = Returned response ->
      resp_error response <> None ->
      fst (getSpecificWorkflow env pipelineId name m)
        = Thrown (ReferenceError "error is not defined"))
  /\ (forall workflowId response,
      job_api env (trace m) (jobOptions workflowId (this m))
        = Returned response ->
      resp_error response <> None ->
      fst (getCircleCIJobs env workflowId m)
        = Thrown (ReferenceError "error is not defined"))
  /\ (forall jobNumber response,
      artifact_api env (trace m) (artifactOptions jobNumber (this m))
        = Returned response ->
      resp_error response <> None ->
      fst (getJobsArtifacts env jobNumber m)
        = Thrown (ReferenceError "error is not defined")).
Proof.
  repeat split; intros.
  - rewrite getLastCircleCIPipelineID_run; simpl.
    rewrite H. now apply settle_error.
  - rewrite getSpecificWorkflow_run; simpl.
    rewrite H. now apply settle_error.
  - rewrite getCircleCIJobs_run; simpl.
    rewrite H. now apply settle_error.
  - rewrite getJobsArtifacts_run; simpl.
    rewrite H. now apply settle_error.
Qed.

Lemma response_error_detail_is_lost_witness :
  let env := Stub.failing (Transport "socket hang up") in
  fst (getLastCircleCIPipelineID env "main" Stub.ready)
    = Thrown (ReferenceError "error is not defined")
  /\ fst (getSpecificWorkflow env "p1" "tests" Stub.ready)
    = Thrown (ReferenceError "error is not defined")
  /\ fst (getCircleCIJobs env "w1" Stub.ready)
    = Thrown (ReferenceError "error is not defined")
  /\ fst (getJobsArtifacts env 7 Stub.ready)
    = Thrown (ReferenceError "error is not defined").
Proof.
  intros env.
  destruct (response_error_detail_is_lost env Stub.ready) as (H1 & H2 & H3 & H4).
  split; [|split; [|split]].
  - eapply H1; [reflexivity | discriminate].
  - eapply H2; [reflexivity | discriminate].
  - eapply H3; [reflexivity | discriminate].
  - eapply H4; [reflexivity | discriminate].
Defined.

(* ===================================================================== *)
(** ** Looking an artifact up                                             *)
(* ===================================================================== *)

(** Before [initialize] has assigned [jobs], a lookup fails on reading
    [find] of [undefined], and sends nothing. *)
Lemma findUrlForJob_before_initialize
    (env : Env) (m : Machine) (jobName pathFragment : string) :
  jobs (this m) = None ->
  findUrlForJob env jobName pathFragment m = (Thrown (cannot_read "find"), m).
Proof.
  intros H. unfold findUrlForJob, bind, getThis; simpl. now rewrite H.
Qed.

(** C7: with the jobs aggregated, looking up a job name that none of them
    has fails, on reading [job_number] of the [undefined] that the search
    for the job gave, and leaves the machine as it was: no request for a
    list of artifacts is sent. *)
Theorem findUrlForJob_unknown_job
    (env : Env) (m : Machine) (allJobs : list Job) (jobName pathFragment : string) :
  jobs (this m) = Some allJobs ->
  (forall j, In j allJobs -> job_name j <> jobName) ->
  findUrlForJob env jobName pathFragment m
    = (Thrown (TypeError "Cannot read properties of undefined (reading 'job_number')"),
       m).
Proof.
  intros Hjobs Habsent.
  unfold findUrlForJob, bind, getThis; simpl. rewrite Hjobs.
  replace (find (fun j => String.eqb (job_name j) jobName) allJobs) with (@None Job).
  - reflexivity.
  - symmetry. apply find_none_iff. intros j Hj.
    apply String.eqb_neq. now apply Habsent.
Qed.

Lemma findUrlForJob_unknown_job_witness :
  findUrlForJob (Stub.world "success" "success") "build_android" "app.apk" Stub.ready
    = (Thrown (TypeError "Cannot read properties of undefined (reading 'job_number')"),
       Stub.ready).
Proof.
  apply (@findUrlForJob_unknown_job (Stub.world "success" "success") Stub.ready
           [mkJob "build_hermes_macos-Debug" 7; mkJob "test_android" 9]).
  - reflexivity.
  - intros j [<- | [<- | []]]; simpl; discriminate.
Defined.

(** C2: with the jobs aggregated and [jobName] the name of one of them (the
    first of that name is taken), when the request for its artifacts is
    answered with a list, [findUrlForJob] returns the url of the first
    artifact of the list whose path has [pathFragment] as a substring; and
    when no path of the list has it, the lookup fails, on reading [url] of
    the [undefined] that the search gave. *)
Theorem findUrlForJob_first_match
    (env : Env) (m : Machine) (before after : list Job) (job : Job)
    (jobName pathFragment : string) (artifacts : list Artifact) :
  jobs (this m) = Some (before ++ job :: after) ->
  (forall j, In j before -> job_name j <> jobName) ->
  job_name job = jobName ->
  artifact_api env (trace m) (artifactOptions (job_number job) (this m))
    = Returned (mkResponse None artifacts) ->
  let outcome := fst (findUrlForJob env jobName pathFragment m) in
  (exists skipped a rest,
      artifacts = skipped ++ a :: rest
      /\ (forall x, In x skipped -> ~ contains (art_path x) pathFragment)
      /\ contains (art_path a) pathFragment
      /\ outcome = Returned (art_url a))
  \/ ((forall x, In x artifacts -> ~ contains (art_path x) pathFragment)
      /\ outcome
         = Thrown (TypeError "Cannot read properties of undefined (reading 'url')")).
Proof.
  intros Hjobs Hbefore Hname Hanswer outcome.
  assert (Hrun : outcome =
            match find (fun a => indexOf (art_path a) pathFragment >? -1) artifacts with
            | Some a => Returned (art_url a)
            | None => Thrown (cannot_read "url")
            end).
  { unfold outcome, findUrlForJob, bind, getThis; simpl. rewrite Hjobs.
    rewrite (find_first (fun j => String.eqb (job_name j) jobName) before after job).
    - rewrite getJobsArtifacts_run, Hanswer, settle_items.
      now destruct (find _ artifacts).
    - intros j Hj. apply String.eqb_neq. now apply Hbefore.
    - now apply String.eqb_eq. }
  clearbody outcome. clear Hanswer.
  destruct (find _ artifacts) as [a|] eqn:Hfind.
  - left. revert Hfind. induction artifacts as [|x l IH]; simpl; [discriminate|].
    destruct (indexOf (art_path x) pathFragment >? -1) eqn:Hx.
    + intros [= ->]. exists [], a, l. repeat split; trivial.
      * intros y [].
      * now apply indexOf_contains.
    + intros Hl. destruct (IH Hl) as (skipped & a' & rest & -> & Hs & Ha & Ho).
      exists (x :: skipped), a', rest. repeat split; trivial.
      intros y [<- | Hy]; [now apply indexOf_not_contains | now apply Hs].
  - right. split; [|exact Hrun].
    intros x Hx. apply indexOf_not_contains.
    exact (proj1 (find_none_iff _ artifacts) Hfind x Hx).
Qed.

Lemma findUrlForJob_first_match_witness :
  let outcome :=
    fst (findUrlForJob (Stub.world "success" "success")
           "build_hermes_macos-Debug" "hermes-ios-debug.tar.gz" Stub.ready) in
  (exists skipped a rest,
      Stub.artifactsOf
        "https://circleci.com/api/v2/project/gh/facebook/react-native/7/artifacts"
        = skipped ++ a :: rest
      /\ (forall x, In x skipped -> ~ contains (art_path x) "hermes-ios-debug.tar.gz")
      /\ contains (art_path a) "hermes-ios-debug.tar.gz"
      /\ outcome = Returned (art_url a))
  \/ ((forall x,
         In x (Stub.artifactsOf
                 "https://circleci.com/api/v2/project/gh/facebook/react-native/7/artifacts") ->
         ~ contains (art_path x) "hermes-ios-debug.tar.gz")
      /\ outcome
         = Thrown (TypeError "Cannot read properties of undefined (reading 'url')")).
Proof.
  apply (@findUrlForJob_first_match (Stub.world "success" "success") Stub.ready
           [] [mkJob "test_android" 9] (mkJob "build_hermes_macos-Debug" 7)).
  - reflexivity.
  - intros j [].
  - reflexivity.
  - reflexivity.
Defined.

(** On the artifacts of the stub, the lookup of the Hermes tarball returns
    the second entry, the first of the two whose path has the fragment. *)
Example artifactURLHermesDebug_stub :
  fst (artifactURLHermesDebug (Stub.world "success" "success") Stub.ready)
  = Returned "https://ci/a1".
Proof. reflexivity. Qed.

(* ===================================================================== *)
(** ** What a computation adds to the trace                               *)
(* ===================================================================== *)

Section Preserves.

Variable P : Event -> Prop.
Variable I : CircleCIArtifacts -> Prop.

Lemma preserves_ret {A : Type} (a : A) : preserves P I (ret a).
Proof. intros m Hm. exists []. simpl. now rewrite app_nil_r. Qed.

Lemma preserves_throw {A : Type} (e : JsError) : preserves P I (@throw A e).
Proof. intros m Hm. exists []. simpl. now rewrite app_nil_r. Qed.

Lemma preserves_await {A : Type} (p : Completion A) : preserves P I (await p).
Proof. intros m Hm. exists []. simpl. now rewrite app_nil_r. Qed.

Lemma preserves_awaitAll {A : Type} (env : Env) (p1 p2 : Completion A) :
  preserves P I (awaitAll env p1 p2).
Proof. intros m Hm. exists []. simpl. now rewrite app_nil_r. Qed.

Lemma preserves_emit (ev : Event) : P ev -> preserves P I (emit ev).
Proof. intros Hev m Hm. exists [ev]. simpl. auto. Qed.

Lemma preserves_exec (env : Env) (command : string) :
  P (Exec command) -> preserves P I (exec env command).
Proof. intros Hev m Hm. exists [Exec command]. simpl. auto. Qed.

Lemma preserves_request {A : Type}
    (api : Trace -> Options -> Completion (Response A)) (options : Options) :
  P (Request options) -> preserves P I (request api options).
Proof. intros Hev m Hm. exists [Request options]. simpl. auto. Qed.

Lemma preserves_setThis (r : CircleCIArtifacts) : I r -> preserves P I (setThis r).
Proof. intros Hr m Hm. exists []. simpl. now rewrite app_nil_r. Qed.

Lemma preserves_bind {A B : Type} (c : JS A) (k : A -> JS B) :
  preserves P I c -> (forall a, preserves P I (k a)) -> preserves P I (bind c k).
Proof.
  intros Hc Hk m Hm. unfold bind.
  destruct (Hc m Hm) as (t & Ht & HP & HI).
  destruct (c m) as [[a|e] m1]; simpl in *.
  - destruct (Hk a m1 HI) as (t' & Ht' & HP' & HI').
    exists (t ++ t'). rewrite Ht', Ht, app_assoc.
    repeat split; trivial. now apply Forall_app.
  - now exists t.
Qed.

(** After [r <- getThis], [r] is a resolver that satisfies [I]. *)
Lemma preserves_getThis {B : Type} (k : CircleCIArtifacts -> JS B) :
  (forall r, I r -> preserves P I (k r)) -> preserves P I (bind getThis k).
Proof. intros Hk m Hm. unfold bind, getThis. now apply Hk. Qed.

Lemma preserves_call_async {A : Type} (c : JS A) :
  preserves P I c -> preserves P I (call_async c).
Proof.
  intros Hc m Hm. unfold call_async.
  destruct (Hc m Hm) as (t & Ht & HP & HI).
  destruct (c m) as [p m1]. now exists t.
Qed.

Lemma preserves_drop {A : Type} (p : Completion A) :
  (forall e, P (UnhandledRejection e)) -> preserves P I (drop p).
Proof.
  intros HP. destruct p; simpl; [apply preserves_ret | now apply preserves_emit].
Qed.

Lemma preserves_try_catch {A : Type} (c : JS A) (h : JsError -> JS A) :
  preserves P I c -> (forall e, preserves P I (h e)) -> preserves P I (try_catch c h).
Proof.
  intros Hc Hh m Hm. unfold try_catch.
  destruct (Hc m Hm) as (t & Ht & HP & HI).
  destruct (c m) as [[a|e] m1]; simpl in *.
  - now exists t.
  - destruct (Hh e m1 HI) as (t' & Ht' & HP' & HI').
    exists (t ++ t'). rewrite Ht', Ht, app_assoc.
    repeat split; trivial. now apply Forall_app.
Qed.

End Preserves.

Ltac preserves_step :=
  match goal with
  | |- preserves _ _ (bind getThis _) => apply preserves_getThis; intros
  | |- preserves _ _ (bind _ _) => apply preserves_bind; [|intros]
  | |- preserves _ _ (ret _) => apply preserves_ret
  | |- preserves _ _ (throw _) => apply preserves_throw
  | |- preserves _ _ (awaitAll _ _ _) => apply preserves_awaitAll
  | |- preserves _ _ (emit _) => apply preserves_emit
  | |- preserves _ _ (exec _ _) => apply preserves_exec
  | |- preserves _ _ (request _ _) => apply preserves_request
  | |- preserves _ _ (setThis _) => apply preserves_setThis
  | |- preserves _ _ (call_async _) => apply preserves_call_async
  | |- preserves _ _ (drop _) => apply preserves_drop
  | |- preserves _ _ (try_catch _ _) => apply preserves_try_catch; [|intros]
  | |- preserves _ _ (match ?x with _ => _ end) => destruct x
  | |- preserves _ _ (if ?x then _ else _) => destruct x
  end.

Section ResolverPreserves.

Variable env : Env.
Variable P : Event -> Prop.
Variable I : CircleCIArtifacts -> Prop.

(** What the resolver needs of [P] and [I]: a request built from a
    resolver that satisfies [I] is allowed, so is a rejection left
    unhandled, and assigning [jobs] keeps [I]. *)
Hypothesis request_ok :
  forall r o, I r -> headers o = circleCIHeaders r -> P (Request o).
Hypothesis rejection_ok : forall e, P (UnhandledRejection e).
Hypothesis jobs_ok :
  forall r js, I r ->
    I (mkResolver (circleCIToken r) (circleCIHeaders r) js (baseTmpPath r)).

Ltac resolver_preserves :=
  repeat preserves_step; eauto.

Lemma throwIfResponseError_preserves {A : Type} (response : Response A) :
  preserves P I (throwIfResponseError response).
Proof. unfold throwIfResponseError. resolver_preserves. Qed.

Lemma getLastCircleCIPipelineID_preserves (branchName : string) :
  preserves P I (getLastCircleCIPipelineID env branchName).
Proof.
  unfold getLastCircleCIPipelineID.
  resolver_preserves; apply throwIfResponseError_preserves.
Qed.

Lemma getSpecificWorkflow_preserves (pipelineId name : string) :
  preserves P I (getSpecificWorkflow env pipelineId name).
Proof.
  unfold getSpecificWorkflow.
  resolver_preserves; apply throwIfResponseError_preserves.
Qed.

Lemma getCircleCIJobs_preserves (workflowId : string) :
  preserves P I (getCircleCIJobs env workflowId).
Proof.
  unfold getCircleCIJobs.
  resolver_preserves; apply throwIfResponseError_preserves.
Qed.

Lemma getJobsArtifacts_preserves (jobNumber : Z) :
  preserves P I (getJobsArtifacts env jobNumber).
Proof.
  unfold getJobsArtifacts.
  resolver_preserves; apply throwIfResponseError_preserves.
Qed.

Lemma throwIfPendingOrUnsuccessfulWorkflow_preserves (workflow : option Workflow) :
  preserves P I (throwIfPendingOrUnsuccessfulWorkflow workflow).
Proof. unfold throwIfPendingOrUnsuccessfulWorkflow. resolver_preserves. Qed.

Lemma resolveJobs_preserves (branchName : string) :
  preserves P I (resolveJobs env branchName).
Proof.
  unfold resolveJobs, getPackageAndReleaseWorkflow, getTestsWorkflow, workflowId.
  repeat first
    [ apply getLastCircleCIPipelineID_preserves
    | apply getSpecificWorkflow_preserves
    | apply getCircleCIJobs_preserves
    | apply throwIfPendingOrUnsuccessfulWorkflow_preserves
    | preserves_step ];
    eauto.
Qed.

Lemma findUrlForJob_preserves (jobName pathFragment : string) :
  preserves P I (findUrlForJob env jobName pathFragment).
Proof.
  unfold findUrlForJob.
  repeat first [ apply getJobsArtifacts_preserves | preserves_step ]; eauto.
Qed.

End ResolverPreserves.

Ltac only_appends :=
  unfold getPackageAndReleaseWorkflow, getTestsWorkflow, workflowId;
  repeat first
    [ apply getLastCircleCIPipelineID_preserves
    | apply getSpecificWorkflow_preserves
    | apply getCircleCIJobs_preserves
    | apply getJobsArtifacts_preserves
    | apply throwIfPendingOrUnsuccessfulWorkflow_preserves
    | preserves_step ];
  try exact Logic.I; try (intros; exact Logic.I).

(** Whatever the continuation of a [bind] does, it does after the events
    of the first computation. *)
Lemma bind_trace_after {A B : Type} (c : JS A) (k : A -> JS B) (m : Machine) :
  (forall a, preserves anyEvent anyResolver (k a)) ->
  exists t, trace (snd (bind c k m)) = trace (snd (c m)) ++ t.
Proof.
  intros Hk. unfold bind. destruct (c m) as [[a|e] m1]; simpl.
  - destruct (Hk a m1 Logic.I) as (t & Ht & _). now exists t.
  - exists []. now rewrite app_nil_r.
Qed.

Lemma bind_returned {A B : Type} (c : JS A) (k : A -> JS B) (m m1 : Machine) (a : A) :
  c m = (Returned a, m1) -> bind c k m = k a m1.
Proof. intros H. unfold bind. now rewrite H. Qed.

Lemma bind_thrown {A B : Type} (c : JS A) (k : A -> JS B) (m m1 : Machine)
    (e : JsError) :
  c m = (Thrown e, m1) -> bind c k m = (Thrown e, m1).
Proof. intros H. unfold bind. now rewrite H. Qed.

Arguments bind_returned {A B c} k {m m1 a} _.
Arguments bind_thrown {A B c} k {m m1 e} _.

Arguments pipelineOptions : simpl never.
Arguments workflowOptions : simpl never.
Arguments jobOptions : simpl never.
Arguments artifactOptions : simpl never.
Arguments cannot_read : simpl never.
Arguments not_defined : simpl never.
Arguments workflowNotReady : simpl never.
Arguments getLastCircleCIPipelineID : simpl never.
Arguments getSpecificWorkflow : simpl never.
Arguments getCircleCIJobs : simpl never.
Arguments getJobsArtifacts : simpl never.

Lemma bind_inv {A B : Type} (c : JS A) (k : A -> JS B) (m m' : Machine) (b : B) :
  bind c k m = (Returned b, m') ->
  exists a m1, c m = (Returned a, m1) /\ k a m1 = (Returned b, m').
Proof.
  unfold bind. destruct (c m) as [[a|e] m1]; [|discriminate].
  intros H. now exists a, m1.
Qed.

Lemma settle_returned {A B : Type} (answer : Completion (Response A))
    (k : list A -> Completion B) (b : B) :
  settle answer k = Returned b ->
  exists items, answer = Returned (mkResponse None items) /\ k items = Returned b.
Proof.
  unfold settle. destruct answer as [[[e|] items]|e]; simpl; try discriminate.
  intros H. now exists items.
Qed.

Lemma named_eq (name : string) (workflows : list Workflow) (w : Workflow) :
  find (named name) workflows = Some w -> wf_name w = name /\ In w workflows.
Proof.
  intros H. apply find_some in H. destruct H as [Hin H].
  split; [now apply String.eqb_eq | exact Hin].
Qed.

Lemma find_named_absent (name : string) (workflows : list Workflow) :
  (forall w, In w workflows -> wf_name w <> name) ->
  find (named name) workflows = None.
Proof.
  intros H. apply find_none_iff. intros w Hw. apply String.eqb_neq. now apply H.
Qed.

(* ===================================================================== *)
(** ** initialize                                                         *)
(* ===================================================================== *)

Lemma initialize_started (env : Env) (branchName : string) (m : Machine) :
  initialize env branchName m = resolveJobs env branchName (started m).
Proof. reflexivity. Qed.

(** C3: when the pipelines of the branch are answered with a list,
    [initialize] takes the item at index 0: the pipeline it works with has
    the id and the number of that item, and the request it sends next asks
    for the workflows of that id. When the list is empty, [initialize]
    fails, on reading [id] of the [undefined] item, having sent the one
    request. *)
Theorem initialize_selects_first_pipeline
    (env : Env) (branchName : string) (m : Machine) (items : list Pipeline) :
  let options := pipelineOptions branchName (this m) in
  pipeline_api env (trace (started m)) options = Returned (mkResponse None items) ->
  match items with
  | [] =>
      initialize env branchName m
        = (Thrown (TypeError "Cannot read properties of undefined (reading 'id')"),
           sent (started m) options)
  | first :: _ =>
      getLastCircleCIPipelineID env branchName (started m)
        = (Returned (mkPipeline (pipeline_id first) (pipeline_number first)),
           sent (started m) options)
      /\ exists t,
          trace (snd (initialize env branchName m))
            = trace (sent (started m) options)
              ++ Request (workflowOptions (pipeline_id first) (this m)) :: t
  end.
Proof.
  intros options Hanswer.
  assert (Hfirst : getLastCircleCIPipelineID env branchName (started m)
                   = (firstPipeline items, sent (started m) options)).
  { rewrite getLastCircleCIPipelineID_run.
    change (this (started m)) with (this m). fold options. now rewrite Hanswer. }
  destruct items as [|first rest].
  - rewrite initialize_started. unfold resolveJobs.
    now rewrite (bind_thrown _ Hfirst).
  - split; [exact Hfirst|].
    rewrite initialize_started. unfold resolveJobs.
    rewrite (bind_returned _ Hfirst). simpl pipeline_id.
    unfold getPackageAndReleaseWorkflow at 1.
    match goal with
    | |- exists t, trace (snd (bind ?c ?k ?m1)) = _ =>
        destruct (@bind_trace_after _ _ c k m1) as [t Ht]
    end.
    { intros w. only_appends. }
    rewrite getSpecificWorkflow_run in Ht. simpl in Ht.
    exists t. rewrite Ht. simpl. now rewrite <- app_assoc.
Qed.

Lemma initialize_selects_first_pipeline_witness :
  let env := Stub.world "success" "success" in
  let options := pipelineOptions "main" (this Stub.fresh) in
  getLastCircleCIPipelineID env "main" (started Stub.fresh)
    = (Returned (mkPipeline "p1" 42), sent (started Stub.fresh) options)
  /\ exists t,
      trace (snd (initialize env "main" Stub.fresh))
        = trace (sent (started Stub.fresh) options)
          ++ Request (workflowOptions "p1" (this Stub.fresh)) :: t.
Proof.
  intros env options.
  exact (@initialize_selects_first_pipeline env "main" Stub.fresh
           [mkPipeline "p1" 42; mkPipeline "p0" 41] eq_refl).
Defined.

(** On a branch without pipelines [initialize] fails after one request. *)
Example initialize_empty_branch :
  initialize Stub.emptyBranch "main" Stub.fresh
  = (Thrown (TypeError "Cannot read properties of undefined (reading 'id')"),
     mkMachine [ConsoleInfo "Getting CircleCI infoes";
                Request (pipelineOptions "main" undefinedResolver)]
               undefinedResolver).
Proof. reflexivity. Qed.

(* --------------------------------------------------------------------- *)
(** *** The status of the workflows                                       *)
(* --------------------------------------------------------------------- *)

(** Called on a workflow whose status is not ["success"], the check throws
    an error that names the workflow and its status. *)
Lemma throwIfPendingOrUnsuccessfulWorkflow_throws (w : Workflow) (m : Machine) :
  wf_status w <> "success" ->
  throwIfPendingOrUnsuccessfulWorkflow (Some w) m
  = (Thrown (Error ("The " ++ wf_name w ++ " workflow status is " ++ wf_status w
                    ++ ". Please, wait for it to be finished before start testing or fix it")%string),
     m).
Proof.
  intros H. unfold throwIfPendingOrUnsuccessfulWorkflow.
  apply String.eqb_neq in H. now rewrite H.
Qed.

(** The promise of a check and its being dropped change nothing but the
    trace, by one unhandled rejection at most. *)
Lemma check_dropped (workflow : option Workflow) (m m1 m2 : Machine)
    (check : Completion unit) (c : Completion unit) :
  call_async (throwIfPendingOrUnsuccessfulWorkflow workflow) m = (Returned check, m1) ->
  drop check m1 = (c, m2) ->
  c = Returned tt /\ this m2 = this m
  /\ (trace m2 = trace m
      \/ exists e, check = Thrown e /\ trace m2 = trace m ++ [UnhandledRejection e]).
Proof.
  unfold call_async, throwIfPendingOrUnsuccessfulWorkflow.
  destruct workflow as [w|]; [destruct (negb _)|]; simpl;
    intros [= <- <-]; simpl; intros [= <- <-]; simpl; eauto 6.
Qed.

Ltac status_case E :=
  first
    [ intros Hs; apply negb_false_iff, String.eqb_eq in E; congruence
    | intros _; repeat rewrite in_app_iff; simpl; tauto ].

(** The promise of [initialize] does not depend on the statuses. In a
    process that outlives the rejections left unhandled (one that handles
    the [unhandledRejection] event), with a pipeline on the branch, both
    workflows in its list and the two job lists answered, [initialize]
    returns and aggregates the jobs whatever the statuses of the workflows
    are; the error of a check that a status fails is the rejection of a
    promise that [initialize] never awaits. *)
Lemma initialize_promise_ignores_status
    (env : Env) (branchName : string) (m : Machine)
    (p : Pipeline) (rest : list Pipeline) (workflows : list Workflow)
    (w1 w2 : Workflow) (js1 js2 : list Job) :
  pipeline_api env (trace (started m)) (pipelineOptions branchName (this m))
    = Returned (mkResponse None (p :: rest)) ->
  (forall t, workflow_api env t (workflowOptions (pipeline_id p) (this m))
             = Returned (mkResponse None workflows)) ->
  find (named "package_and_publish_release_dryrun") workflows = Some w1 ->
  find (named "tests") workflows = Some w2 ->
  (forall t, job_api env t (jobOptions (wf_id w1) (this m))
             = Returned (mkResponse None js1)) ->
  (forall t, job_api env t (jobOptions (wf_id w2) (this m))
             = Returned (mkResponse None js2)) ->
  exists m',
    initialize env branchName m = (Returned tt, m')
    /\ jobs (this m') = Some (js1 ++ js2)
    /\ (wf_status w1 <> "success" ->
        In (UnhandledRejection (workflowNotReady (wf_name w1) (wf_status w1)))
           (trace m'))
    /\ (wf_status w2 <> "success" ->
        In (UnhandledRejection (workflowNotReady (wf_name w2) (wf_status w2)))
           (trace m')).
Proof.
  intros Hp Hw Hf1 Hf2 Hj1 Hj2.
  rewrite initialize_started. unfold resolveJobs.
  cbv [bind getPackageAndReleaseWorkflow getTestsWorkflow].
  rewrite getLastCircleCIPipelineID_run.
  change (this (started m)) with (this m). rewrite Hp. simpl.
  rewrite getSpecificWorkflow_run. simpl this. rewrite Hw. simpl.
  rewrite Hf1.
  unfold call_async at 1. unfold throwIfPendingOrUnsuccessfulWorkflow at 1.
  destruct (negb (String.eqb (wf_status w1) "success")) eqn:E1; simpl;
    rewrite getSpecificWorkflow_run; simpl this; rewrite Hw; simpl;
    rewrite Hf2;
    unfold call_async at 1; unfold throwIfPendingOrUnsuccessfulWorkflow at 1;
    destruct (negb (String.eqb (wf_status w2) "success")) eqn:E2; simpl;
    unfold call_async;
    rewrite getCircleCIJobs_run; simpl this; rewrite Hj1; simpl;
    rewrite getCircleCIJobs_run; simpl this; rewrite Hj2; simpl;
    (eexists; split; [reflexivity | simpl; rewrite app_nil_r ]);
    (split; [reflexivity | split; [status_case E1 | status_case E2]]).
Qed.

(* --------------------------------------------------------------------- *)
(** *** The workflows and their jobs                                      *)
(* --------------------------------------------------------------------- *)

(** In such a process the promise of [initialize] is rejected when
    either workflow is missing from the list: on reading [id] of the
    [undefined] that the search for the workflow gave, when the requests
    for the jobs are built. No jobs are assigned. *)
Lemma initialize_promise_without_workflow
    (env : Env) (branchName : string) (m : Machine)
    (p : Pipeline) (rest : list Pipeline) (workflows : list Workflow) :
  pipeline_api env (trace (started m)) (pipelineOptions branchName (this m))
    = Returned (mkResponse None (p :: rest)) ->
  (forall t, workflow_api env t (workflowOptions (pipeline_id p) (this m))
             = Returned (mkResponse None workflows)) ->
  (forall w, In w workflows -> wf_name w <> "package_and_publish_release_dryrun")
  \/ (forall w, In w workflows -> wf_name w <> "tests") ->
  fst (initialize env branchName m)
    = Thrown (TypeError "Cannot read properties of undefined (reading 'id')")
  /\ jobs (this (snd (initialize env branchName m))) = jobs (this m).
Proof.
  intros Hp Hw Habsent.
  assert (H : exists m',
             initialize env branchName m = (Thrown (cannot_read "id"), m')
             /\ jobs (this m') = jobs (this m)).
  2:{ destruct H as (m' & -> & H). split; [reflexivity | exact H]. }
  rewrite initialize_started. unfold resolveJobs.
  cbv [bind getPackageAndReleaseWorkflow getTestsWorkflow].
  rewrite getLastCircleCIPipelineID_run.
  change (this (started m)) with (this m). rewrite Hp. simpl.
  rewrite getSpecificWorkflow_run. simpl this. rewrite Hw. simpl.
  destruct (find (named "package_and_publish_release_dryrun") workflows)
    as [w1|] eqn:F1.
  - destruct Habsent as [Habsent|Habsent].
    { rewrite (@find_named_absent _ _ Habsent) in F1. discriminate. }
    unfold call_async at 1. unfold throwIfPendingOrUnsuccessfulWorkflow at 1.
    destruct (negb (String.eqb (wf_status w1) "success")); simpl;
      rewrite getSpecificWorkflow_run; simpl this; rewrite Hw; simpl;
      rewrite (@find_named_absent _ _ Habsent); simpl;
      unfold call_async; rewrite getCircleCIJobs_run;
      destruct (settle _ _); simpl; eexists; split; reflexivity.
  - unfold call_async at 1. simpl.
    rewrite getSpecificWorkflow_run. simpl this. rewrite Hw. simpl.
    destruct (find (named "tests") workflows) as [w2|]; simpl.
    + destruct (negb (String.eqb (wf_status w2) "success")); simpl;
        eexists; split; reflexivity.
    + eexists; split; reflexivity.
Qed.

Lemma jobsOfWorkflows_returned (env : Env) (found1 found2 : option Workflow)
    (m m' : Machine) :
  jobsOfWorkflows env found1 found2 m = (Returned tt, m') ->
  exists w1 w2 js1 js2,
    let first := jobOptions (wf_id w1) (this m) in
    let second := jobOptions (wf_id w2) (this m) in
    found1 = Some w1 /\ found2 = Some w2
    /\ job_api env (trace m) first = Returned (mkResponse None js1)
    /\ job_api env (trace m ++ [Request first]) second = Returned (mkResponse None js2)
    /\ trace m' = trace m ++ [Request first; Request second]
    /\ jobs (this m') = Some (js1 ++ js2).
Proof.
  unfold jobsOfWorkflows.
  destruct found1 as [w1|]; [|discriminate].
  destruct found2 as [w2|].
  2:{ cbv [bind workflowId ret throw call_async try_catch].
      destruct (getCircleCIJobs _ _ _) as [[]]; simpl; discriminate. }
  cbv [bind workflowId ret throw call_async try_catch awaitAll await getThis setThis].
  rewrite !getCircleCIJobs_run. simpl trace. simpl this.
  destruct (settle (job_api env (trace m) _) _) as [js1|e1] eqn:H1;
    destruct (settle (job_api env (trace m ++ _) _) _) as [js2|e2] eqn:H2;
    simpl; try discriminate.
  intros [= <-]. simpl.
  apply settle_returned in H1, H2.
  destruct H1 as (i1 & H1 & [= ->]). destruct H2 as (i2 & H2 & [= ->]).
  exists w1, w2, js1, js2. simpl.
  rewrite <- app_assoc, app_nil_r. auto 10.
Qed.

(** On the stub the jobs of the release workflow come first. *)
Example initialize_stub_jobs :
  jobs (this (snd (initialize (Stub.world "success" "success") "main" Stub.fresh)))
  = Some [mkJob "build_hermes_macos-Debug" 7; mkJob "test_android" 9].
Proof. reflexivity. Qed.

(* --------------------------------------------------------------------- *)
(** *** The process                                                       *)
(* --------------------------------------------------------------------- *)


Lemma sync_settled {A : Type} (c : JS A) (s s' : Process) (r : Completion A) :
  sync c s = (Settled r, s') ->
  c (machine s) = (r, machine s') /\ unhandled s' = unhandled s.
Proof. unfold sync. destruct (c (machine s)). now intros [= -> <-]. Qed.

Lemma tick_settled {A : Type} (c r : Completion A) (s s' : Process) :
  tick c s = (Settled r, s') -> r = c /\ s' = s /\ unhandled s = [].
Proof.
  unfold tick. destruct (unhandled s); [|discriminate].
  intros [= <- <-]. auto.
Qed.

Lemma awaited_settled {A : Type} (c : JS A) (s s' : Process) (r : Completion A) :
  awaited c s = (Settled r, s') ->
  c (machine s) = (r, machine s') /\ unhandled s = [] /\ unhandled s' = [].
Proof.
  unfold awaited. destruct (c (machine s)) as [r1 m1]. intros H.
  apply tick_settled in H. destruct H as (-> & -> & H). auto.
Qed.

Lemma toTheLoop_settled {A : Type} (c : Node A) (s s' : Process) (r : Completion A) :
  toTheLoop c s = (Settled r, s') ->
  c s = (Settled r, s') /\ unhandled s' = [].
Proof.
  unfold toTheLoop. destruct (c s) as [[r1|e] s1]; [|discriminate]. intros H.
  apply tick_settled in H. destruct H as (-> & -> & H). auto.
Qed.

(** The check changes nothing of the machine; its promise is rejected
    unless the workflow is there and successful. *)
Lemma notAwaited_check (workflow : option Workflow) (s : Process) :
  notAwaited (throwIfPendingOrUnsuccessfulWorkflow workflow) s
  = (Settled (Returned tt),
     mkProcess (machine s) (unhandled s ++ checkError workflow)).
Proof.
  unfold notAwaited, checkError, throwIfPendingOrUnsuccessfulWorkflow.
  destruct workflow as [w|]; [|reflexivity].
  destruct (String.eqb (wf_status w) "success"); simpl;
    [now rewrite app_nil_r | reflexivity].
Qed.

Lemma checkError_none (workflow : option Workflow) :
  checkError workflow = [] ->
  exists w, workflow = Some w /\ wf_status w = "success".
Proof.
  unfold checkError. destruct workflow as [w|]; [|discriminate].
  destruct (String.eqb (wf_status w) "success") eqn:E; [|discriminate].
  intros _. exists w. split; [reflexivity | now apply String.eqb_eq].
Qed.



Arguments checkError : simpl never.










(** The run of the witness: the jobs of the release workflow come first. *)
Example initialize_node_stub_jobs :
  initialize_node (Stub.world "success" "success") "main" Stub.fresh
  = (Settled (Returned tt),
     mkMachine
       [ConsoleInfo "Getting CircleCI infoes";
        Request (pipelineOptions "main" undefinedResolver);
        Request (workflowOptions "p1" undefinedResolver);
        Request (workflowOptions "p1" undefinedResolver);
        Request (jobOptions "w1" undefinedResolver);
        Request (jobOptions "w2" undefinedResolver)]
       (mkResolver None None
          (Some [mkJob "build_hermes_macos-Debug" 7; mkJob "test_android" 9])
          None)).
Proof. reflexivity. Qed.

(* --------------------------------------------------------------------- *)
(** *** The process and the promise of initialize                         *)
(* --------------------------------------------------------------------- *)

Lemma andThen_settled {A B : Type} (c : Node A) (k : A -> Node B)
    (s s' : Process) (r : Completion B) :
  andThen c k s = (Settled r, s') ->
  (exists a s1, c s = (Settled (Returned a), s1) /\ k a s1 = (Settled r, s'))
  \/ (exists e, r = Thrown e /\ c s = (Settled (Thrown e), s')).
Proof.
  unfold andThen. destruct (c s) as [[[a|e]|e] s1]; try discriminate.
  - intros H. left. now exists a, s1.
  - intros [= <- <-]. right. now exists e.
Qed.

Lemma grows_sync {A : Type} (c : JS A) : grows (sync c).
Proof.
  intros s r s' H. apply sync_settled in H. destruct H as [_ H].
  exists []. now rewrite app_nil_r.
Qed.

Lemma grows_awaited {A : Type} (c : JS A) : grows (awaited c).
Proof.
  intros s r s' H. apply awaited_settled in H. destruct H as (_ & -> & ->).
  now exists [].
Qed.

Lemma grows_andThen {A B : Type} (c : Node A) (k : A -> Node B) :
  grows c -> (forall a, grows (k a)) -> grows (andThen c k).
Proof.
  intros Hc Hk s r s' H. apply andThen_settled in H.
  destruct H as [(a & s1 & H1 & H2) | (e & -> & H1)].
  - apply Hc in H1. apply Hk in H2. destruct H1 as [x H1], H2 as [y H2].
    exists (x ++ y). now rewrite H2, H1, app_assoc.
  - now apply Hc in H1.
Qed.

Lemma grown_from_nothing (a b : list JsError) : a ++ b = [] -> a = [].
Proof. now destruct a. Qed.

Lemma survives_sync {A : Type} (c : JS A) : survives c (sync c).
Proof. intros s r s' H _. now apply sync_settled in H. Qed.

Lemma survives_awaited {A : Type} (c : JS A) : survives c (awaited c).
Proof. intros s r s' H _. now apply awaited_settled in H. Qed.

Lemma survives_andThen {A B : Type} (c : JS A) (k : A -> JS B)
    (n : Node A) (k' : A -> Node B) :
  survives c n -> (forall a, grows (k' a)) -> (forall a, survives (k a) (k' a)) ->
  survives (bind c k) (andThen n k').
Proof.
  intros Hc Hg Hk s r s' H U. apply andThen_settled in H.
  destruct H as [(a & s1 & H1 & H2) | (e & -> & H1)].
  - assert (U1 : unhandled s1 = []).
    { destruct (Hg _ _ _ _ H2) as [more E]. rewrite U in E.
      symmetry in E. now apply grown_from_nothing in E. }
    unfold bind. rewrite (Hc _ _ _ H1 U1). now apply Hk.
  - unfold bind. now rewrite (Hc _ _ _ H1 U).
Qed.

(** A check whose promise is dropped, and what follows it: the process
    settles with nothing left unhandled only when the check passed. *)
Lemma survives_check {B : Type} (workflow : option Workflow)
    (k : JS B) (k' : Node B) :
  grows k' ->
  (checkError workflow = [] -> survives k k') ->
  survives (check <- call_async (throwIfPendingOrUnsuccessfulWorkflow workflow) ;;
            drop check ;; k)
           (_ <-- notAwaited (throwIfPendingOrUnsuccessfulWorkflow workflow) ;; k')%node.
Proof.
  intros Hg Hk s r s' H U. unfold andThen in H. rewrite notAwaited_check in H.
  destruct (Hg _ _ _ H) as [more E]. rewrite U in E. simpl in E.
  symmetry in E. apply grown_from_nothing, app_eq_nil in E. destruct E as [_ E].
  pose proof (Hk E _ _ _ H U) as H'. simpl in H'. clear H. rename H' into H.
  apply checkError_none in E. destruct E as (w & -> & Hs).
  apply String.eqb_eq in Hs.
  unfold bind, call_async, throwIfPendingOrUnsuccessfulWorkflow. rewrite Hs. exact H.
Qed.

Lemma survives_jobs (env : Env) (found1 found2 : option Workflow) :
  checkError found2 = [] ->
  survives (jobsOfWorkflows env found1 found2)
           (promises <-- sync (jobsPromises env found1 found2) ;;
            jobsResults <-- awaited (awaitAll env (fst promises) (snd promises)) ;;
            sync (assignJobs jobsResults))%node.
Proof.
  intros E. apply checkError_none in E. destruct E as (w2 & -> & _).
  intros s r s' H _. unfold jobsOfWorkflows.
  destruct found1 as [w1|].
  2:{ unfold andThen, sync, jobsPromises, bind, workflowId, throw in H.
      now injection H as <- <-. }
  unfold andThen at 1, sync at 1 in H.
  unfold jobsPromises, bind, workflowId, ret, call_async in H.
  unfold bind, workflowId, try_catch, ret, call_async.
  rewrite !getCircleCIJobs_run in *. simpl fst in H. simpl snd in H.
  unfold andThen, awaited, awaitAll, await, tick in H. simpl machine in H.
  simpl unhandled in H. unfold awaitAll, await.
  destruct (unhandled s); [|discriminate].
  destruct (Promise_all2 _ _ _) as [jobsResults|e].
  - apply sync_settled in H. destruct H as [H _]. exact H.
  - now injection H as <- <-.
Qed.

Lemma grows_notAwaited {A : Type} (c : JS A) : grows (notAwaited c).
Proof.
  intros s r s'. unfold notAwaited. destruct (c (machine s)) as [[a|e] m1];
    intros [= _ <-]; simpl; [exists []; now rewrite app_nil_r | now exists [e]].
Qed.

Ltac grows_chain :=
  repeat match goal with
         | |- grows (andThen _ _) => apply grows_andThen
         | |- grows (sync _) => apply grows_sync
         | |- grows (awaited _) => apply grows_awaited
         | |- grows (notAwaited _) => apply grows_notAwaited
         | |- forall _, grows _ => intro
         end.

Lemma initialize_survives (env : Env) (branchName : string) :
  survives (initialize env branchName) (initialize_steps env branchName).
Proof.
  unfold initialize, initialize_steps.
  apply survives_andThen; [apply survives_sync | grows_chain | intros _].
  unfold resolveJobs.
  apply survives_andThen; [apply survives_awaited | grows_chain | intros pipeline].
  apply survives_andThen; [apply survives_awaited | grows_chain | intros found1].
  apply survives_check; [grows_chain | intros _].
  apply survives_andThen; [apply survives_awaited | grows_chain | intros found2].
  apply survives_check; [grows_chain | intros E].
  exact (@survives_jobs env found1 found2 E).
Qed.

(** Whenever the process lets [initialize] settle, the promise of
    [initialize] settles that way: [initialize] and [initialize_node]
    agree on every run that the process survives. *)
Lemma initialize_node_settled
    (env : Env) (branchName : string) (m m' : Machine) (r : Completion unit) :
  initialize_node env branchName m = (Settled r, m') ->
  initialize env branchName m = (r, m').
Proof.
  unfold initialize_node.
  destruct (toTheLoop _ _) as [ending s] eqn:H. intros [= -> <-].
  apply toTheLoop_settled in H. destruct H as [H U].
  exact (@initialize_survives env branchName _ _ _ H U).
Qed.

(* --------------------------------------------------------------------- *)
(** *** The headers of the requests                                       *)
(* --------------------------------------------------------------------- *)

Lemma initialize_preserves_headers (env : Env) (h : option Headers)
    (branchName : string) :
  preserves (carries h) (reads h) (initialize env branchName).
Proof.
  unfold initialize. apply preserves_bind.
  - apply preserves_emit. exact Logic.I.
  - intros _. apply resolveJobs_preserves.
    + intros r o Hr Ho. unfold carries, reads in *. congruence.
    + intros e. exact Logic.I.
    + intros r js Hr. exact Hr.
Qed.

Lemma findUrlForJob_preserves_headers (env : Env) (h : option Headers)
    (jobName pathFragment : string) :
  preserves (carries h) (reads h) (findUrlForJob env jobName pathFragment).
Proof.
  apply findUrlForJob_preserves.
  intros r o Hr Ho. unfold carries, reads in *. congruence.
Qed.

(** C5, which the class departs from: the constructor stores the header
    object built from the token in the property [circleCIToken], and the
    helpers read their headers from the property [circleCIHeaders], which
    nothing assigns. Every request that [initialize] and a lookup send,
    from a resolver just constructed, has no headers. *)
Theorem class_requests_carry_no_header
    (env : Env) (token branchName jobName pathFragment : string) (m : Machine) :
  let run := (constructor token ;;
              initialize env branchName ;;
              findUrlForJob env jobName pathFragment)%js in
  circleCIToken (this (snd (constructor token m))) = Some [("Circle-Token", token)]
  /\ exists t, trace (snd (run m)) = trace m ++ t /\ Forall (carries None) t.
Proof.
  intros run. split; [reflexivity|].
  assert (H : preserves (carries None) (reads None)
                (initialize env branchName ;;
                 findUrlForJob env jobName pathFragment)%js).
  { apply preserves_bind; [apply initialize_preserves_headers|].
    intros _. apply findUrlForJob_preserves_headers. }
  destruct (H (snd (constructor token m)) eq_refl) as (t & Ht & HP & _).
  exists t. split; [exact Ht | exact HP].
Qed.

(** On the stub, the six requests of such a run, none with a header. *)
Example class_requests_stub :
  trace (snd ((constructor "token" ;;
               initialize (Stub.world "success" "success") "main" ;;
               artifactURLHermesDebug (Stub.world "success" "success"))%js
              Stub.fresh))
  = [ConsoleInfo "Getting CircleCI infoes";
     Request (mkOptions "GET"
                "https://circleci.com/api/v2/project/gh/facebook/react-native/pipeline"
                [("branch", "main")] None);
     Request (mkOptions "GET" "https://circleci.com/api/v2/pipeline/p1/workflow" [] None);
     Request (mkOptions "GET" "https://circleci.com/api/v2/pipeline/p1/workflow" [] None);
     Request (mkOptions "GET" "https://circleci.com/api/v2/workflow/w1/job" [] None);
     Request (mkOptions "GET" "https://circleci.com/api/v2/workflow/w2/job" [] None);
     Request (mkOptions "GET"
                "https://circleci.com/api/v2/project/gh/facebook/react-native/7/artifacts"
                [] None)].
Proof. reflexivity. Qed.

(** The free-function variant assigns the variable its helpers read: every
    request of its [initialize] carries the [Circle-Token] header. *)
Lemma free_requests_carry_token
    (env : Env) (token baseTempPath branchName : string) (m : Machine) :
  exists t,
    trace (snd (initialize_free env token baseTempPath branchName m)) = trace m ++ t
    /\ Forall (carries (Some [("Circle-Token", token)])) t.
Proof.
  set (h := Some [("Circle-Token", token)]).
  assert (H : preserves (carries h) (reads h)
                (_ <- exec env ("mkdir -p " ++ baseTempPath) ;;
                 resolveJobs env branchName)%js).
  { apply preserves_bind; [apply preserves_exec; exact Logic.I|].
    intros _. apply resolveJobs_preserves.
    - intros r o Hr Ho. unfold carries, reads in *. congruence.
    - intros e. exact Logic.I.
    - intros r js Hr. exact Hr. }
  destruct (H (mkMachine (trace m ++ [ConsoleInfo "Getting CircleCI infoes"])
                 (mkResolver (circleCIToken (this m)) h (jobs (this m))
                    (Some baseTempPath))) eq_refl) as (t & Ht & HP & _).
  exists (ConsoleInfo "Getting CircleCI infoes" :: t). split.
  - change (initialize_free env token baseTempPath branchName m)
      with ((_ <- exec env ("mkdir -p " ++ baseTempPath) ;;
             resolveJobs env branchName)%js
              (mkMachine (trace m ++ [ConsoleInfo "Getting CircleCI infoes"])
                 (mkResolver (circleCIToken (this m)) h (jobs (this m))
                    (Some baseTempPath)))).
    rewrite Ht. simpl. now rewrite <- app_assoc.
  - constructor; [exact Logic.I | exact HP].
Qed.

(** A request that is itself rejected, by the transport, rejects the helper
    with the error of the transport. *)
Lemma request_rejection_propagates (env : Env) (m : Machine) (e : JsError)
    (jobNumber : Z) :
  artifact_api env (trace m) (artifactOptions jobNumber (this m)) = Thrown e ->
  fst (getJobsArtifacts env jobNumber m) = Thrown e.
Proof. intros H. rewrite getJobsArtifacts_run. simpl. now rewrite H. Qed.
(* ===================================================================== *)
(** ** Lines of output                                                    *)
(* ===================================================================== *)

Lemma count_char_app (c : ascii) (a b : string) :
  count_char c (a ++ b)%string = (count_char c a + count_char c b)%nat.
Proof. induction a as [|d a IH]; simpl; [reflexivity | rewrite IH; lia]. Qed.

(** No piece of a split holds the separator. *)
Lemma split_acc_pieces (sep : ascii) (s acc x : string) :
  count_char sep acc = 0%nat ->
  In x (split_acc sep acc s) -> count_char sep x = 0%nat.
Proof.
  revert acc; induction s as [|c s IH]; intros acc Hacc; simpl.
  - intros [<- | []]. exact Hacc.
  - destruct (Ascii.eqb c sep) eqn:E.
    + intros [<- | H]; [exact Hacc | now apply (IH EmptyString)].
    + apply IH. rewrite count_char_app. simpl. rewrite E, Hacc. reflexivity.
Qed.

(** A split has one piece more than the string has separators. *)
Lemma split_acc_length (sep : ascii) (s acc : string) :
  length (split_acc sep acc s) = S (count_char sep s).
Proof.
  revert acc; induction s as [|c s IH]; intros acc; simpl; [reflexivity|].
  destruct (Ascii.eqb c sep); simpl; now rewrite IH.
Qed.

(** The pieces of a split are all empty exactly when the string holds
    nothing but separators. *)
Lemma split_acc_all_empty (sep : ascii) (s acc : string) :
  filter nonEmpty (split_acc sep acc s) = []
  <-> acc = EmptyString /\ all_chars (fun c => Ascii.eqb c sep) s = true.
Proof.
  revert acc; induction s as [|c s IH]; intros acc; simpl.
  - unfold nonEmpty. destruct acc; simpl; intuition congruence.
  - destruct (Ascii.eqb c sep) eqn:E; simpl.
    + unfold nonEmpty at 1. destruct acc; simpl.
      * rewrite IH. intuition.
      * intuition congruence.
    + rewrite IH. split; [|intros [_ H]; discriminate].
      intros [H _]. destruct acc; discriminate.
Qed.

Lemma getEmulators_run (env : Env) (m : Machine) :
  getEmulators env m =
    (Returned (filter nonEmpty
                 (split newline
                    (exec_stdout env (trace m)
                       (emulatorCommand env ++ " -list-avds")%string))),
     mkMachine (trace m ++ [Exec (emulatorCommand env ++ " -list-avds")%string])
               (this m)).
Proof. reflexivity. Qed.

(** X1: [getEmulators] runs the one command that lists the devices and returns
    names of which none is empty and none holds a line feed; it returns no
    name exactly when the command printed nothing but line feeds. *)
Theorem getEmulators_names (env : Env) (m : Machine) :
  exists names,
    getEmulators env m =
      (Returned names,
       mkMachine (trace m ++ [Exec (emulatorCommand env ++ " -list-avds")%string])
                 (this m))
    /\ (forall name, In name names ->
          name <> EmptyString /\ count_char newline name = 0%nat)
    /\ (names = [] <->
        onlyLineFeeds (exec_stdout env (trace m)
                         (emulatorCommand env ++ " -list-avds")%string) = true).
Proof.
  eexists. split; [apply getEmulators_run|]. split.
  - intros name H. apply filter_In in H. destruct H as [Hin Hne]. split.
    + intros ->. discriminate.
    + unfold split in Hin. eapply split_acc_pieces; [|exact Hin]. reflexivity.
  - unfold split. rewrite split_acc_all_empty. unfold onlyLineFeeds. intuition.
Qed.

Lemma getEmulators_names_witness :
  let env := Project.world Project.avds in
  exists names,
    getEmulators env Stub.fresh =
      (Returned names,
       mkMachine (trace Stub.fresh
                  ++ [Exec (emulatorCommand env ++ " -list-avds")%string])
                 (this Stub.fresh))
    /\ (forall name, In name names ->
          name <> EmptyString /\ count_char newline name = 0%nat)
    /\ (names = [] <->
        onlyLineFeeds (exec_stdout env (trace Stub.fresh)
                         (emulatorCommand env ++ " -list-avds")%string) = true).
Proof.
  intros env. exact (getEmulators_names env Stub.fresh).
Defined.

(** The two devices of the stub, in the order printed. *)
Example getEmulators_stub :
  fst (getEmulators (Project.world Project.avds) Stub.fresh)
  = Returned ["Pixel_6_API_33"; "Nexus_5X"].
Proof. reflexivity. Qed.

Lemma append_empty (s : string) : (s ++ "")%string = s.
Proof. induction s as [|c s IH]; simpl; [reflexivity | now rewrite IH]. Qed.

Lemma append_append (a b c : string) : ((a ++ b) ++ c)%string = (a ++ b ++ c)%string.
Proof. induction a as [|d a IH]; simpl; [reflexivity | now rewrite IH]. Qed.

(** The first name that is not empty among the pieces of a split is the
    first stretch of the string without separator that is not empty:
    separators alone come before it, and a separator or nothing after. *)
Lemma split_acc_first (sep : ascii) (s acc first : string) (rest : list string) :
  filter nonEmpty (split_acc sep acc s) = first :: rest ->
  exists before line after,
    s = (before ++ line ++ after)%string
    /\ first = (acc ++ line)%string
    /\ all_chars (fun c => Ascii.eqb c sep) before = true
    /\ (acc <> EmptyString -> before = EmptyString)
    /\ count_char sep line = 0%nat
    /\ (after = EmptyString \/ exists more, after = String sep more).
Proof.
  revert acc; induction s as [|c s IH]; intros acc; simpl.
  - unfold nonEmpty. destruct (String.eqb acc "") eqn:E; simpl; [discriminate|].
    intros [= <- <-]. exists EmptyString, EmptyString, EmptyString.
    rewrite !append_empty. simpl. auto 10.
  - destruct (Ascii.eqb c sep) eqn:E.
    + apply Ascii.eqb_eq in E. subst c. simpl. unfold nonEmpty at 1.
      destruct (String.eqb acc "") eqn:Eacc; simpl.
      * apply String.eqb_eq in Eacc. subst acc. intros H.
        destruct (IH _ H) as (before & line & after & -> & -> & Hb & _ & Hl & Ha).
        exists (String sep before), line, after. simpl.
        rewrite Ascii.eqb_refl, Hb. intuition congruence.
      * intros [= <- <-]. exists EmptyString, EmptyString, (String sep s).
        rewrite !append_empty. simpl. eauto 10.
    + intros H.
      destruct (IH _ H) as (before & line & after & -> & -> & Hb & Hacc & Hl & Ha).
      rewrite Hacc by (destruct acc; discriminate).
      exists EmptyString, (String c line), after. simpl. rewrite E, Hl.
      rewrite append_append. simpl. auto 10.
Qed.

(** X2: [tryLaunchEmulator] never throws. After listing the devices it
    either starts nothing and reports the failure with its message, which
    it does exactly when the list printed holds nothing but line feeds, or
    it starts one process, the emulator under the first name listed: the
    first line of the list that is not empty, which is also the first of
    the names of [getEmulators]. It then reports success when starting the
    process did not throw, and the error caught when it did. *)
Theorem tryLaunchEmulator_first_listed (env : Env) (m : Machine) :
  let command := (emulatorCommand env ++ " -list-avds")%string in
  let out := exec_stdout env (trace m) command in
  (onlyLineFeeds out = true
   /\ tryLaunchEmulator env m
      = (Returned
           (mkLaunchResult false
              (Some (Message "No emulators found as an output of `emulator -list-avds`"))),
         mkMachine (trace m ++ [Exec command]) (this m)))
  \/ (exists before name after names,
        onlyLineFeeds out = false
        /\ out = (before ++ name ++ after)%string
        /\ onlyLineFeeds before = true
        /\ name <> EmptyString
        /\ count_char newline name = 0%nat
        /\ (after = EmptyString \/ exists more, after = String newline more)
        /\ fst (getEmulators env m) = Returned (name :: names)
        /\ tryLaunchEmulator env m
           = (Returned
                match spawn_throws env (trace m ++ [Exec command])
                        (emulatorCommand env) [("@" ++ name)%string] with
                | None => mkLaunchResult true None
                | Some e => mkLaunchResult false (Some (Caught e))
                end,
              mkMachine (trace m ++ [Exec command;
                                     Spawn (emulatorCommand env) [("@" ++ name)%string]])
                        (this m))).
Proof.
  intros command out.
  assert (Hlist : getEmulators env m
                  = (Returned (filter nonEmpty (split newline out)),
                     mkMachine (trace m ++ [Exec command]) (this m))).
  { apply getEmulators_run. }
  unfold tryLaunchEmulator, bind. rewrite Hlist. simpl fst.
  destruct (filter nonEmpty (split newline out)) as [|first names] eqn:Hnames.
  - left. split; [|reflexivity].
    unfold split in Hnames. apply split_acc_all_empty in Hnames. apply Hnames.
  - right.
    assert (Hout : onlyLineFeeds out = false).
    { destruct (onlyLineFeeds out) eqn:E; [|reflexivity].
      assert (H : filter nonEmpty (split newline out) = []).
      { unfold split. apply split_acc_all_empty. now split. }
      rewrite H in Hnames. discriminate. }
    assert (Hne : first <> EmptyString).
    { assert (H : In first (filter nonEmpty (split newline out))).
      { rewrite Hnames. now left. }
      apply filter_In in H. destruct H as [_ H]. intros ->. discriminate. }
    unfold split in Hnames.
    destruct (split_acc_first _ _ _ Hnames)
      as (before & line & after & Hs & Hf & Hb & _ & Hl & Ha).
    simpl in Hf. subst line.
    exists before, first, after, names.
    repeat (split; [assumption || reflexivity|]).
    unfold try_catch, launchEmulator, spawn, ret. simpl trace. simpl this.
    rewrite <- app_assoc. cbn [app].
    destruct (spawn_throws env _ _ _); reflexivity.
Qed.

Lemma tryLaunchEmulator_first_listed_witness :
  let env := Project.world Project.avds in
  let m := Stub.fresh in
  let command := (emulatorCommand env ++ " -list-avds")%string in
  let out := exec_stdout env (trace m) command in
  (onlyLineFeeds out = true
   /\ tryLaunchEmulator env m
      = (Returned
           (mkLaunchResult false
              (Some (Message "No emulators found as an output of `emulator -list-avds`"))),
         mkMachine (trace m ++ [Exec command]) (this m)))
  \/ (exists before name after names,
        onlyLineFeeds out = false
        /\ out = (before ++ name ++ after)%string
        /\ onlyLineFeeds before = true
        /\ name <> EmptyString
        /\ count_char newline name = 0%nat
        /\ (after = EmptyString \/ exists more, after = String newline more)
        /\ fst (getEmulators env m) = Returned (name :: names)
        /\ tryLaunchEmulator env m
           = (Returned
                match spawn_throws env (trace m ++ [Exec command])
                        (emulatorCommand env) [("@" ++ name)%string] with
                | None => mkLaunchResult true None
                | Some e => mkLaunchResult false (Some (Caught e))
                end,
              mkMachine (trace m ++ [Exec command;
                                     Spawn (emulatorCommand env) [("@" ++ name)%string]])
                        (this m))).
Proof.
  intros env m. exact (tryLaunchEmulator_first_listed env m).
Defined.

(** On the stub the first device is started. *)
Example tryLaunchEmulator_stub :
  tryLaunchEmulator (Project.world Project.avds) Stub.fresh
  = (Returned (mkLaunchResult true None),
     mkMachine [Exec "emulator -list-avds"; Spawn "emulator" ["@Pixel_6_API_33"]]
               undefinedResolver).
Proof. reflexivity. Qed.

(** X3: [hasConnectedDevice] runs the one [adb] command and answers [true]
    exactly when what it printed, trimmed, holds a line feed: a line after
    the first, which is taken for the header and dropped. *)
Theorem hasConnectedDevice_second_line (env : Env) (m : Machine) :
  hasConnectedDevice env m =
    (Returned
       (0 <? count_char newline
               (trim (exec_stdout env (trace m) "adb devices | grep -v emulator")))%nat,
     mkMachine (trace m ++ [Exec "adb devices | grep -v emulator"]) (this m)).
Proof.
  unfold hasConnectedDevice, bind, exec, ret. simpl.
  unfold slice1, split.
  set (out := trim _).
  pose proof (split_acc_length newline out EmptyString) as H.
  destruct (split_acc newline EmptyString out) as [|x l]; [discriminate|].
  simpl in *. injection H as H. rewrite H.
  f_equal. f_equal.
  destruct (count_char newline out); reflexivity.
Qed.

(* ===================================================================== *)
(** ** The packager                                                       *)
(* ===================================================================== *)

(** X4: [checkPackagerRunning] asks the status at the port of
    [RCT_METRO_PORT], 8081 when that is unset or empty, and runs the kill
    command, which names port 8081, exactly when the answer is the string
    [packager-status:running] to the character; it runs nothing else. *)
Theorem checkPackagerRunning_kills_only_running
    (env : Env) (RCT_METRO_PORT : option string) (m : Machine) :
  let status := statusCommand (defaultPackagerPort RCT_METRO_PORT) in
  checkPackagerRunning env RCT_METRO_PORT m =
    (Returned tt,
     mkMachine
       (trace m ++ Exec status ::
          (if String.eqb (exec_stdout env (trace m) status) "packager-status:running"
           then [Exec killCommand] else []))
       (this m)).
Proof.
  intros status.
  unfold checkPackagerRunning, isPackagerRunning, try_catch, bind, exec, ret.
  simpl. fold status.
  destruct (String.eqb (exec_stdout env (trace m) status) "packager-status:running");
    simpl; [now rewrite <- app_assoc | reflexivity].
Qed.

(* ===================================================================== *)
(** ** The architecture of the emulator in the name of the APK            *)
(* ===================================================================== *)

Lemma contains_count (c : ascii) (s p : string) :
  contains s p -> (count_char c p <= count_char c s)%nat.
Proof.
  intros (pre & post & ->). rewrite !count_char_app. lia.
Qed.

Lemma trimEnd_spaces (w : string) :
  all_chars is_space w = true -> trimEnd w = EmptyString.
Proof.
  induction w as [|c w IH]; simpl; [reflexivity|].
  intros H. apply andb_true_iff in H. destruct H as [Hc Hw].
  now rewrite (IH Hw), Hc.
Qed.

Lemma trimEnd_app (a w : string) :
  all_chars isInk a = true -> all_chars is_space w = true ->
  trimEnd (a ++ w)%string = a.
Proof.
  intros Ha Hw. induction a as [|c a IH]; simpl.
  - now apply trimEnd_spaces.
  - simpl in Ha. apply andb_true_iff in Ha. destruct Ha as [Hc Ha].
    rewrite (IH Ha). unfold isInk in Hc. apply negb_true_iff in Hc.
    rewrite Hc. now destruct a.
Qed.

Lemma trimStart_ink (a w : string) :
  all_chars isInk a = true -> all_chars is_space w = true ->
  trimEnd (trimStart (a ++ w)%string) = a.
Proof.
  intros Ha Hw. destruct a as [|c a].
  - simpl. clear Ha. induction w as [|d w IH]; simpl; [reflexivity|].
    simpl in Hw. apply andb_true_iff in Hw. destruct Hw as [Hd Hw].
    rewrite Hd. now apply IH.
  - pose proof Ha as Ha'. simpl in Ha'. apply andb_true_iff in Ha'.
    destruct Ha' as [Hc _]. unfold isInk in Hc. apply negb_true_iff in Hc.
    change (trimStart (String c a ++ w)%string)
      with (if is_space c then trimStart (a ++ w)%string else String c (a ++ w)%string).
    rewrite Hc. now apply (trimEnd_app (String c a) w).
Qed.

(** X5: [artifactURLForHermesRNTesterAPK] of the first revision puts what
    [adb] printed into the path fragment as it is. When that holds a line
    feed, as the line [adb] ends its answer with, and no path of the
    artifacts of the job does, the lookup fails whatever the artifacts are. *)
Theorem artifactURLForHermesRNTesterAPK_line_feed
    (env : Env) (m : Machine) (before after : list Job) (job : Job)
    (artifacts : list Artifact) :
  let adb := "adb shell getprop ro.product.cpu.abi" in
  jobs (this m) = Some (before ++ job :: after) ->
  (forall j, In j before -> job_name j <> "test_android") ->
  job_name job = "test_android" ->
  artifact_api env (trace m ++ [Exec adb]) (artifactOptions (job_number job) (this m))
    = Returned (mkResponse None artifacts) ->
  (forall a, In a artifacts -> count_char newline (art_path a) = 0%nat) ->
  (0 < count_char newline (exec_stdout env (trace m) adb))%nat ->
  fst (artifactURLForHermesRNTesterAPK env m)
    = Thrown (TypeError "Cannot read properties of undefined (reading 'url')").
Proof.
  intros adb Hjobs Hbefore Hname Hanswer Hpaths Hout.
  set (m1 := mkMachine (trace m ++ [Exec adb]) (this m)).
  change (artifactURLForHermesRNTesterAPK env m)
    with (findUrlForJob env "test_android"
            (apkFragment (exec_stdout env (trace m) adb)) m1).
  assert (Hj : jobs (this m1) = Some (before ++ job :: after)) by exact Hjobs.
  unfold findUrlForJob, bind, getThis. rewrite Hj.
  rewrite (find_first (fun j => String.eqb (job_name j) "test_android") before after job).
  - rewrite getJobsArtifacts_run.
    change (trace m1) with (trace m ++ [Exec adb]).
    change (this m1) with (this m).
    rewrite Hanswer, settle_items.
    match goal with
    | |- context [find ?f artifacts] =>
        replace (find f artifacts) with (@None Artifact); [reflexivity|]
    end.
    symmetry. apply find_none_iff. intros a Ha.
    apply indexOf_not_contains. intros Hc.
    apply (contains_count newline) in Hc.
    rewrite (Hpaths a Ha) in Hc. unfold apkFragment in Hc.
    rewrite !count_char_app in Hc. lia.
  - intros j Hj'. apply String.eqb_neq. now apply Hbefore.
  - now apply String.eqb_eq.
Qed.

Lemma artifactURLForHermesRNTesterAPK_line_feed_witness :
  fst (artifactURLForHermesRNTesterAPK (Project.world Project.abi) Project.ready)
    = Thrown (TypeError "Cannot read properties of undefined (reading 'url')").
Proof.
  apply (@artifactURLForHermesRNTesterAPK_line_feed
           (Project.world Project.abi) Project.ready
           [mkJob "build_hermes_macos-Debug" 7;
            mkJob "build_and_publish_npm_package-2" 8]
           [] (mkJob "test_android" 9)
           [mkArtifact "rntester-apk/hermes/release/app-hermes-arm64-v8a-release.apk"
              "https://ci/apk"]).
  - reflexivity.
  - intros j [<- | [<- | []]]; simpl; discriminate.
  - reflexivity.
  - reflexivity.
  - intros a [<- | []]. reflexivity.
  - simpl. lia.
Defined.

(** X6: [artifactURLForHermesRNTesterAPK] of the later revision trims what
    [adb] printed: for an architecture without white space followed by
    white space only, it is the lookup, in the job [test_android], of the
    fragment built from the architecture alone. *)
Theorem artifactURLForHermesRNTesterAPK_trimmed_arch
    (env : Env) (m : Machine) (arch blank : string) :
  let adb := "adb shell getprop ro.product.cpu.abi" in
  exec_stdout env (trace m) adb = (arch ++ blank)%string ->
  all_chars isInk arch = true ->
  all_chars is_space blank = true ->
  artifactURLForHermesRNTesterAPK_trimmed env m
    = findUrlForJob env "test_android" (apkFragment arch)
        (mkMachine (trace m ++ [Exec adb]) (this m)).
Proof.
  intros adb Hout Harch Hblank.
  unfold artifactURLForHermesRNTesterAPK_trimmed, bind, exec. fold adb.
  rewrite Hout. unfold trim. rewrite (trimStart_ink _ _ Harch Hblank).
  reflexivity.
Qed.

Lemma artifactURLForHermesRNTesterAPK_trimmed_arch_witness :
  artifactURLForHermesRNTesterAPK_trimmed (Project.world Project.abi) Project.ready
    = findUrlForJob (Project.world Project.abi) "test_android"
        (apkFragment "arm64-v8a")
        (mkMachine (trace Project.ready
                    ++ [Exec "adb shell getprop ro.product.cpu.abi"])
                   (this Project.ready)).
Proof.
  apply (@artifactURLForHermesRNTesterAPK_trimmed_arch
           (Project.world Project.abi) Project.ready "arm64-v8a" lineFeed);
    reflexivity.
Defined.

(** With the answer of [adb] trimmed the APK of the stub is found. *)
Example artifactURLForHermesRNTesterAPK_trimmed_stub :
  fst (artifactURLForHermesRNTesterAPK_trimmed (Project.world Project.abi)
         Project.ready)
  = Returned "https://ci/apk".
Proof. reflexivity. Qed.

(* ===================================================================== *)
(** ** What a failure leaves behind                                       *)
(* ===================================================================== *)

Section ThrowsWithin.

Variable P : Event -> Prop.
Variable I : CircleCIArtifacts -> Prop.

Lemma throws_within_preserves {A : Type} (c : JS A) :
  preserves P I c -> throws_within P I c.
Proof.
  intros Hc m Hm e m' H. destruct (Hc m Hm) as (t & Ht & HP & HI).
  rewrite H in *. now exists t.
Qed.

Lemma throws_within_returns {A : Type} (c : JS A) :
  (forall m, exists a m', c m = (Returned a, m')) -> throws_within P I c.
Proof.
  intros Hc m Hm e m' H. destruct (Hc m) as (a & m1 & H1). congruence.
Qed.

Lemma throws_within_bind {A B : Type} (c : JS A) (k : A -> JS B) :
  preserves P I c -> (forall a, throws_within P I (k a)) ->
  throws_within P I (bind c k).
Proof.
  intros Hc Hk m Hm e m' H. unfold bind in H.
  destruct (Hc m Hm) as (t & Ht & HP & HI).
  destruct (c m) as [[a|e1] m1]; simpl in *.
  - destruct (Hk a m1 HI e m' H) as (t' & Ht' & HP' & HI').
    exists (t ++ t'). rewrite Ht', Ht, app_assoc.
    repeat split; trivial. now apply Forall_app.
  - injection H as <- <-. now exists t.
Qed.

End ThrowsWithin.

Lemma getThis_preserves (P : Event -> Prop) (I : CircleCIArtifacts -> Prop) :
  preserves P I getThis.
Proof. intros m Hm. exists []. simpl. now rewrite app_nil_r. Qed.

Lemma any_request (I : CircleCIArtifacts -> Prop) :
  forall r o, I r -> headers o = circleCIHeaders r -> anyEvent (Request o).
Proof. intros. exact Logic.I. Qed.

Lemma quiet_request (I : CircleCIArtifacts -> Prop) :
  forall r o, I r -> headers o = circleCIHeaders r -> quiet (Request o).
Proof. intros. exact Logic.I. Qed.

Lemma resolveJobs_throws_within (env : Env) (branchName : string)
    (I : CircleCIArtifacts -> Prop) :
  throws_within anyEvent I (resolveJobs env branchName).
Proof.
  unfold resolveJobs, getPackageAndReleaseWorkflow, getTestsWorkflow.
  repeat (apply throws_within_bind; [|intros]).
  all: try (apply getLastCircleCIPipelineID_preserves; apply any_request).
  all: try (apply getSpecificWorkflow_preserves; apply any_request).
  all: try (apply preserves_call_async).
  all: try (apply getCircleCIJobs_preserves; apply any_request).
  all: try apply throwIfPendingOrUnsuccessfulWorkflow_preserves.
  all: try (apply preserves_drop; intros; exact Logic.I).
  all: try apply preserves_awaitAll.
  all: try (unfold workflowId; repeat preserves_step; intros; exact Logic.I).
  - apply getThis_preserves.
  - apply throws_within_returns. intros m. now eexists _, _.
Qed.

Lemma initialize_throws_within (env : Env) (branchName : string)
    (I : CircleCIArtifacts -> Prop) :
  throws_within anyEvent I (initialize env branchName).
Proof.
  unfold initialize. apply throws_within_bind.
  - apply preserves_emit. exact Logic.I.
  - intros _. apply resolveJobs_throws_within.
Qed.

Lemma initialize_sameButJobs (env : Env) (branchName : string) (r0 : CircleCIArtifacts) :
  preserves anyEvent (sameButJobs r0) (initialize env branchName).
Proof.
  unfold initialize. apply preserves_bind.
  - apply preserves_emit. exact Logic.I.
  - intros _. apply resolveJobs_preserves.
    + intros. exact Logic.I.
    + intros. exact Logic.I.
    + intros r js Hr. exact Hr.
Qed.

(** X7: [initialize] changes nothing of the resolver but its jobs, however
    it completes, and when it fails it leaves the jobs as they were too. *)
Theorem initialize_changes_jobs_only
    (env : Env) (branchName : string) (m : Machine) :
  let after := this (snd (initialize env branchName m)) in
  circleCIToken after = circleCIToken (this m)
  /\ circleCIHeaders after = circleCIHeaders (this m)
  /\ baseTmpPath after = baseTmpPath (this m)
  /\ (forall e, fst (initialize env branchName m) = Thrown e ->
       jobs after = jobs (this m)).
Proof.
  intros after.
  destruct (@initialize_sameButJobs env branchName (this m) m)
    as (_ & _ & _ & H1 & H2 & H3); [repeat split|].
  repeat split; trivial.
  intros e He. unfold after.
  destruct (initialize env branchName m) as [c m'] eqn:Hrun. simpl in *. subst c.
  destruct (@initialize_throws_within env branchName (fun r => r = this m) m
              eq_refl e m' Hrun) as (_ & _ & _ & ->).
  reflexivity.
Qed.

Lemma initialize_changes_jobs_only_witness :
  let after := this (snd (initialize Stub.emptyBranch "main" Project.ready)) in
  circleCIToken after = circleCIToken (this Project.ready)
  /\ circleCIHeaders after = circleCIHeaders (this Project.ready)
  /\ baseTmpPath after = baseTmpPath (this Project.ready)
  /\ jobs after = jobs (this Project.ready).
Proof.
  intros after.
  destruct (initialize_changes_jobs_only Stub.emptyBranch "main" Project.ready)
    as (H1 & H2 & H3 & H4).
  split; [exact H1|]. split; [exact H2|]. split; [exact H3|].
  apply (H4 (TypeError "Cannot read properties of undefined (reading 'id')")).
  reflexivity.
Defined.

(** X8: neither [initialize] nor a lookup runs a shell command or starts a
    process: the events they add are console lines, requests and
    unhandled rejections. *)
Theorem resolver_never_runs_commands
    (env : Env) (branchName jobName pathFragment : string) (m : Machine) :
  (exists t, trace (snd (initialize env branchName m)) = trace m ++ t
             /\ Forall quiet t)
  /\ (exists t, trace (snd (findUrlForJob env jobName pathFragment m)) = trace m ++ t
              /\ Forall quiet t).
Proof.
  split.
  - assert (H : preserves quiet anyResolver (initialize env branchName)).
    { unfold initialize. apply preserves_bind.
      - apply preserves_emit. exact Logic.I.
      - intros _. apply resolveJobs_preserves; intros; exact Logic.I. }
    destruct (H m Logic.I) as (t & Ht & HP & _). now exists t.
  - assert (H : preserves quiet anyResolver (findUrlForJob env jobName pathFragment)).
    { apply findUrlForJob_preserves. intros; exact Logic.I. }
    destruct (H m Logic.I) as (t & Ht & HP & _). now exists t.
Qed.

(* ===================================================================== *)
(** ** One request for each lookup                                        *)
(* ===================================================================== *)

(** X9: a lookup in a job the resolver has sends exactly one request, for
    the artifacts of that job, and leaves the resolver as it was, whether
    the lookup then succeeds or fails: nothing is kept from one lookup to
    the next. *)
Theorem findUrlForJob_one_request
    (env : Env) (m : Machine) (before after : list Job) (job : Job)
    (jobName pathFragment : string) :
  jobs (this m) = Some (before ++ job :: after) ->
  (forall j, In j before -> job_name j <> jobName) ->
  job_name job = jobName ->
  snd (findUrlForJob env jobName pathFragment m)
    = mkMachine (trace m ++ [Request (artifactOptions (job_number job) (this m))])
                (this m).
Proof.
  intros Hjobs Hbefore Hname.
  unfold findUrlForJob, bind, getThis. rewrite Hjobs.
  rewrite (find_first (fun j => String.eqb (job_name j) jobName) before after job).
  - rewrite getJobsArtifacts_run.
    destruct (settle _ _) as [artifacts|e]; [|reflexivity].
    now destruct (find _ artifacts).
  - intros j Hj. apply String.eqb_neq. now apply Hbefore.
  - now apply String.eqb_eq.
Qed.

Lemma findUrlForJob_one_request_witness :
  snd (findUrlForJob (Project.world Project.abi)
         "build_and_publish_npm_package-2" "maven-local.zip" Project.ready)
    = mkMachine (trace Project.ready
                 ++ [Request (artifactOptions 8 (this Project.ready))])
                (this Project.ready).
Proof.
  apply (@findUrlForJob_one_request (Project.world Project.abi) Project.ready
           [mkJob "build_hermes_macos-Debug" 7] [mkJob "test_android" 9]
           (mkJob "build_and_publish_npm_package-2" 8)).
  - reflexivity.
  - intros j [<- | []]. simpl. discriminate.
  - reflexivity.
Defined.

(** X10: when the request itself is rejected, each of the four request
    helpers fails with the very error of the rejection. *)
Theorem request_rejection_reaches_caller (env : Env) (m : Machine) (e : JsError) :
  (forall branchName,
      pipeline_api env (trace m) (pipelineOptions branchName (this m)) = Thrown e ->
      fst (getLastCircleCIPipelineID env branchName m) = Thrown e)
  /\ (forall pipelineId name,
      workflow_api env (trace m) (workflowOptions pipelineId (this m)) = Thrown e ->
      fst (getSpecificWorkflow env pipelineId name m) = Thrown e)
  /\ (forall workflowId,
      job_api env (trace m) (jobOptions workflowId (this m)) = Thrown e ->
      fst (getCircleCIJobs env workflowId m) = Thrown e)
  /\ (forall jobNumber,
      artifact_api env (trace m) (artifactOptions jobNumber (this m)) = Thrown e ->
      fst (getJobsArtifacts env jobNumber m) = Thrown e).
Proof.
  split; [|split; [|split]]; intros.
  - rewrite getLastCircleCIPipelineID_run; simpl. now rewrite H.
  - rewrite getSpecificWorkflow_run; simpl. now rewrite H.
  - rewrite getCircleCIJobs_run; simpl. now rewrite H.
  - rewrite getJobsArtifacts_run; simpl. now rewrite H.
Qed.

Lemma request_rejection_reaches_caller_witness :
  let e := Transport "getaddrinfo ENOTFOUND circleci.com" in
  let env := Project.unreachable e in
  fst (getLastCircleCIPipelineID env "main" Project.ready) = Thrown e
  /\ fst (getSpecificWorkflow env "p1" "tests" Project.ready) = Thrown e
  /\ fst (getCircleCIJobs env "w1" Project.ready) = Thrown e
  /\ fst (getJobsArtifacts env 7 Project.ready) = Thrown e.
Proof.
  intros e env.
  destruct (request_rejection_reaches_caller env Project.ready e)
    as (H1 & H2 & H3 & H4).
  split; [|split; [|split]].
  - apply H1. reflexivity.
  - apply H2. reflexivity.
  - apply H3. reflexivity.
  - apply H4. reflexivity.
Defined.

(* ===================================================================== *)
(** ** Downloading the artifacts of a project                             *)
(* ===================================================================== *)

Lemma replay_quiet (FS : Type) (shell : string -> FS -> FS) (t : Trace) (fs : FS) :
  Forall quiet t -> replay shell t fs = fs.
Proof.
  intros H. revert fs. induction H as [|ev t Hev _ IH]; intros fs; [reflexivity|].
  unfold replay in *. simpl. destruct ev; simpl in *; try apply IH; contradiction.
Qed.

Lemma joinBaseTmpPath_preserves (join : string -> string -> string)
    (P : Event -> Prop) (I : CircleCIArtifacts -> Prop) (segment : string) :
  preserves P I (joinBaseTmpPath join segment).
Proof. unfold joinBaseTmpPath. repeat preserves_step. Qed.

(** X11: when [downloadArtifactsFromCircleCI] fails, it has run no command:
    the three URLs are looked up, and the two paths joined, before the
    first file is removed, so a failure leaves the file system and the
    resolver as they were. *)
Theorem downloadArtifactsFromCircleCI_all_or_nothing
    (env : Env) (join : string -> string -> string)
    (mavenLocalPath localNodeTGZPath : string) (m m' : Machine) (e : JsError)
    (FS : Type) (shell : string -> FS -> FS) (fs : FS) :
  downloadArtifactsFromCircleCI env join mavenLocalPath localNodeTGZPath m
    = (Thrown e, m') ->
  exists t, trace m' = trace m ++ t
            /\ Forall quiet t
            /\ replay shell t fs = fs
            /\ this m' = this m.
Proof.
  intros H.
  assert (Hd : throws_within quiet (fun r => r = this m)
                 (downloadArtifactsFromCircleCI env join mavenLocalPath localNodeTGZPath)).
  { unfold downloadArtifactsFromCircleCI, artifactURLForMavenLocal,
      artifactURLForPackagedReactNative, artifactURLHermesDebug.
    do 3 (apply throws_within_bind;
          [apply findUrlForJob_preserves; intros; exact Logic.I | intros]).
    do 2 (apply throws_within_bind; [apply joinBaseTmpPath_preserves | intros]).
    apply throws_within_returns. intros m0. now eexists _, _. }
  destruct (Hd m eq_refl e m' H) as (t & Ht & HP & HI).
  exists t. repeat split; trivial. now apply replay_quiet.
Qed.

Lemma downloadArtifactsFromCircleCI_all_or_nothing_witness :
  let run :=
    downloadArtifactsFromCircleCI (Stub.world "success" "success") Project.join
      "/tmp/maven-local" "/repo/react-native.tgz" Stub.ready in
  exists t, trace (snd run) = trace Stub.ready ++ t
            /\ Forall quiet t
            /\ replay Stub.shell t Stub.stale = Stub.stale
            /\ this (snd run) = this Stub.ready.
Proof.
  intros run.
  apply (@downloadArtifactsFromCircleCI_all_or_nothing
           (Stub.world "success" "success") Project.join
           "/tmp/maven-local" "/repo/react-native.tgz" Stub.ready (snd run)
           (TypeError "Cannot read properties of undefined (reading 'job_number')")
           Stub.Files Stub.shell Stub.stale).
  reflexivity.
Defined.

Lemma joinBaseTmpPath_returned (join : string -> string -> string)
    (segment p : string) (m m' : Machine) :
  joinBaseTmpPath join segment m = (Returned p, m') ->
  exists base, baseTmpPath (this m) = Some base /\ p = join base segment /\ m' = m.
Proof.
  unfold joinBaseTmpPath, bind, getThis.
  destruct (baseTmpPath (this m)) as [base|]; [|discriminate].
  intros [= <- <-]. now exists base.
Qed.

Lemma findUrlForJob_keeps_this (env : Env) (jobName pathFragment : string)
    (m : Machine) :
  this (snd (findUrlForJob env jobName pathFragment m)) = this m.
Proof.
  assert (H : preserves anyEvent (fun r => r = this m)
                (findUrlForJob env jobName pathFragment)).
  { apply findUrlForJob_preserves. intros; exact Logic.I. }
  destruct (H m eq_refl) as (_ & _ & _ & ->). reflexivity.
Qed.

(** X12: when [downloadArtifactsFromCircleCI] returns, the three lookups
    returned a URL each, in the order Maven, package, Hermes; after them
    each URL was downloaded to its path with [downloadArtifact], in the
    same order, and then the package was copied from the path it was
    downloaded to, under the base directory, to [localNodeTGZPath]. The
    result is the path of Hermes under the base directory, and the resolver
    is as it was. *)
Theorem downloadArtifactsFromCircleCI_sequence
    (env : Env) (join : string -> string -> string)
    (mavenLocalPath localNodeTGZPath hermesPath : string) (m m' : Machine) :
  downloadArtifactsFromCircleCI env join mavenLocalPath localNodeTGZPath m
    = (Returned hermesPath, m') ->
  exists base mavenLocalURL packagedReactNativeURL hermesURL m1 m2 m3,
    let packaged := join base "/packaged-react-native.tar.gz" in
    baseTmpPath (this m) = Some base
    /\ artifactURLForMavenLocal env m = (Returned mavenLocalURL, m1)
    /\ artifactURLForPackagedReactNative env m1 = (Returned packagedReactNativeURL, m2)
    /\ artifactURLHermesDebug env m2 = (Returned hermesURL, m3)
    /\ hermesPath = join base "hermes-ios-debug.tar.gz"
    /\ trace m' =
         trace m3 ++
         [ConsoleInfo "[Download] Maven Local Artifacts";
          Exec ("rm -rf " ++ mavenLocalPath)%string;
          Exec ("curl " ++ mavenLocalURL ++ " -Lo " ++ mavenLocalPath)%string;
          ConsoleInfo "[Download] Packaged React Native";
          Exec ("rm -rf " ++ packaged)%string;
          Exec ("curl " ++ packagedReactNativeURL ++ " -Lo " ++ packaged)%string;
          ConsoleInfo "[Download] Hermes";
          Exec ("rm -rf " ++ hermesPath)%string;
          Exec ("curl " ++ hermesURL ++ " -Lo " ++ hermesPath)%string;
          ConsoleLog (">>> Copying the packaged version of react native" ++ lineFeed
                      ++ "from: '" ++ packaged ++ lineFeed
                      ++ "  to: " ++ localNodeTGZPath ++ "'")%string;
          Exec ("cp " ++ packaged ++ " " ++ localNodeTGZPath)%string]
    /\ this m' = this m.
Proof.
  unfold downloadArtifactsFromCircleCI. intros H.
  apply bind_inv in H. destruct H as (u1 & m1 & H1 & H).
  apply bind_inv in H. destruct H as (u2 & m2 & H2 & H).
  apply bind_inv in H. destruct H as (u3 & m3 & H3 & H).
  apply bind_inv in H. destruct H as (p1 & m4 & Hp1 & H).
  apply bind_inv in H. destruct H as (p2 & m5 & Hp2 & H).
  apply joinBaseTmpPath_returned in Hp1. destruct Hp1 as (base & Hbase & -> & ->).
  apply joinBaseTmpPath_returned in Hp2. destruct Hp2 as (base' & Hbase' & -> & ->).
  assert (base' = base) by congruence. subst base'.
  assert (Hthis : this m3 = this m).
  { pose proof (findUrlForJob_keeps_this env "build_and_publish_npm_package-2"
                  "maven-local.zip" m) as E1.
    pose proof (findUrlForJob_keeps_this env "build_and_publish_npm_package-2"
                  "react-native-1000.0.0-" m1) as E2.
    pose proof (findUrlForJob_keeps_this env "build_hermes_macos-Debug"
                  "hermes-ios-debug.tar.gz" m2) as E3.
    unfold artifactURLForMavenLocal in H1.
    unfold artifactURLForPackagedReactNative in H2.
    unfold artifactURLHermesDebug in H3.
    rewrite H1 in E1. rewrite H2 in E2. rewrite H3 in E3. simpl in *. congruence. }
  exists base, u1, u2, u3, m1, m2, m3. simpl.
  rewrite <- Hthis.
  cbv [bind emit downloadArtifact exec ret rmCommand curlCommand] in H.
  simpl in H. injection H as <- <-. simpl.
  repeat rewrite <- app_assoc. simpl. auto 10.
Qed.

Lemma downloadArtifactsFromCircleCI_sequence_witness :
  let env := Project.world Project.abi in
  let run :=
    downloadArtifactsFromCircleCI env Project.join
      "/tmp/maven-local" "/repo/react-native.tgz" Project.ready in
  exists base mavenLocalURL packagedReactNativeURL hermesURL m1 m2 m3,
    let packaged := Project.join base "/packaged-react-native.tar.gz" in
    let hermesPath := Project.join "/tmp/react-native-tmp" "hermes-ios-debug.tar.gz" in
    baseTmpPath (this Project.ready) = Some base
    /\ artifactURLForMavenLocal env Project.ready = (Returned mavenLocalURL, m1)
    /\ artifactURLForPackagedReactNative env m1 = (Returned packagedReactNativeURL, m2)
    /\ artifactURLHermesDebug env m2 = (Returned hermesURL, m3)
    /\ hermesPath = Project.join base "hermes-ios-debug.tar.gz"
    /\ trace (snd run) =
         trace m3 ++
         [ConsoleInfo "[Download] Maven Local Artifacts";
          Exec ("rm -rf " ++ "/tmp/maven-local")%string;
          Exec ("curl " ++ mavenLocalURL ++ " -Lo " ++ "/tmp/maven-local")%string;
          ConsoleInfo "[Download] Packaged React Native";
          Exec ("rm -rf " ++ packaged)%string;
          Exec ("curl " ++ packagedReactNativeURL ++ " -Lo " ++ packaged)%string;
          ConsoleInfo "[Download] Hermes";
          Exec ("rm -rf " ++ hermesPath)%string;
          Exec ("curl " ++ hermesURL ++ " -Lo " ++ hermesPath)%string;
          ConsoleLog (">>> Copying the packaged version of react native" ++ lineFeed
                      ++ "from: '" ++ packaged ++ lineFeed
                      ++ "  to: " ++ "/repo/react-native.tgz" ++ "'")%string;
          Exec ("cp " ++ packaged ++ " " ++ "/repo/react-native.tgz")%string]
    /\ this (snd run) = this Project.ready.
Proof.
  intros env run.
  apply (@downloadArtifactsFromCircleCI_sequence env Project.join
           "/tmp/maven-local" "/repo/react-native.tgz"
           (Project.join "/tmp/react-native-tmp" "hermes-ios-debug.tar.gz")
           Project.ready (snd run)).
  reflexivity.
Defined.

(* ===================================================================== *)
(** ** Setting the resolver up                                            *)
(* ===================================================================== *)

Lemma initialize_returned_jobs (env : Env) (branchName : string) (m m' : Machine) :
  initialize env branchName m = (Returned tt, m') ->
  exists js, jobs (this m') = Some js.
Proof.
  rewrite initialize_started.
  change (resolveJobs env branchName)
    with (pipeline <- getLastCircleCIPipelineID env branchName ;;
          found1 <- getPackageAndReleaseWorkflow env (pipeline_id pipeline) ;;
          check1 <- call_async (throwIfPendingOrUnsuccessfulWorkflow found1) ;;
          drop check1 ;;
          found2 <- getTestsWorkflow env (pipeline_id pipeline) ;;
          check2 <- call_async (throwIfPendingOrUnsuccessfulWorkflow found2) ;;
          drop check2 ;;
          jobsOfWorkflows env found1 found2)%js.
  intros H.
  do 7 (apply bind_inv in H; destruct H as (? & ? & _ & H)).
  apply jobsOfWorkflows_returned in H.
  destruct H as (w1 & w2 & js1 & js2 & _ & _ & _ & _ & _ & Hjobs).
  now exists (js1 ++ js2).
Qed.

Lemma falsy_token (token : string) :
  negb (truthy (VString token)) = true <-> token = EmptyString.
Proof.
  simpl. rewrite negb_involutive. apply String.eqb_eq.
Qed.

(** X13: [setupCircleCIArtifacts] of the utilities returns [null] only
    without a token (none, or the empty string), and then it has done
    nothing; a resolver it returns is the one it built from the token, with
    the temporary directory of the scripts, and has its jobs assigned. *)
Theorem setupCircleCIArtifacts_result
    (env : Env) (circleciToken : option string) (branchName : string)
    (m m' : Machine) (result : option CircleCIArtifacts) :
  setupCircleCIArtifacts env circleciToken branchName m = (Returned result, m') ->
  match result with
  | None =>
      (circleciToken = None \/ circleciToken = Some EmptyString) /\ m' = m
  | Some r =>
      exists token js,
        circleciToken = Some token /\ token <> EmptyString
        /\ r = this m'
        /\ circleCIToken r = Some [("Circle-Token", token)]
        /\ baseTmpPath r = Some "/tmp/react-native-tmp"
        /\ jobs r = Some js
  end.
Proof.
  unfold setupCircleCIArtifacts.
  destruct circleciToken as [token|].
  2:{ intros [= <- <-]. auto. }
  destruct (negb (truthy (VString token))) eqn:E.
  { apply falsy_token in E. subst token. intros [= <- <-]. auto. }
  assert (Hne : token <> EmptyString).
  { intros ->. discriminate. }
  intros H.
  apply bind_inv in H. destruct H as (u & m1 & Hc & H).
  apply bind_inv in H. destruct H as (u' & m2 & Hi & H).
  unfold bind, getThis, ret in H. injection H as <- <-.
  destruct u'.
  destruct (initialize_returned_jobs _ _ _ Hi) as (js & Hjs).
  destruct (@initialize_sameButJobs env branchName (this m1) m1)
    as (_ & _ & _ & H1 & _ & H3); [repeat split|].
  rewrite Hi in H1, H3. simpl in H1, H3.
  unfold constructor_tmp, bind, setThis, exec, ret in Hc. injection Hc as Hm1.
  subst m1. simpl in H1, H3.
  exists token, js. auto 10.
Qed.

Lemma setupCircleCIArtifacts_result_witness :
  let run :=
    setupCircleCIArtifacts (Stub.world "success" "success") (Some "token") "main"
      Stub.fresh in
  exists token js,
    Some "token" = Some token /\ token <> EmptyString
    /\ this (snd run) = this (snd run)
    /\ circleCIToken (this (snd run)) = Some [("Circle-Token", token)]
    /\ baseTmpPath (this (snd run)) = Some "/tmp/react-native-tmp"
    /\ jobs (this (snd run)) = Some js.
Proof.
  intros run.
  apply (@setupCircleCIArtifacts_result (Stub.world "success" "success")
           (Some "token") "main" Stub.fresh (snd run) (Some (this (snd run)))).
  reflexivity.
Defined.

(** X14: [setupCircleCIArtifacts] of test-e2e-local.js never returns a
    resolver and never sends a request: without a token it returns [null],
    and with one it fails on the identifier [branchName], which its scope
    does not bind, before [initialize] is entered. *)
Theorem setupCircleCIArtifacts_script_never_initializes
    (env : Env) (circleciToken : option string) (m : Machine) :
  let run := setupCircleCIArtifacts_script env circleciToken m in
  (forall r, fst run <> Returned (Some r))
  /\ (exists t, trace (snd run) = trace m ++ t /\ Forall offline t)
  /\ (forall token, circleciToken = Some token -> token <> EmptyString ->
        fst run = Thrown (ReferenceError "branchName is not defined")).
Proof.
  unfold setupCircleCIArtifacts_script.
  destruct circleciToken as [token|].
  2:{ simpl. split; [discriminate|]. split; [|discriminate].
      exists []. rewrite app_nil_r. split; [reflexivity | constructor]. }
  destruct (negb (truthy (VString token))) eqn:E.
  { apply falsy_token in E. subst token. simpl.
    split; [discriminate|]. split.
    - exists []. rewrite app_nil_r. split; [reflexivity | constructor].
    - intros tok [= <-] Hne. now elim Hne. }
  simpl. split; [discriminate|]. split.
  - exists [Exec "mkdir -p /tmp/react-native-tmp"].
    split; [reflexivity | repeat constructor].
  - intros tok _ _. reflexivity.
Qed.

Lemma setupCircleCIArtifacts_script_never_initializes_witness :
  let run :=
    setupCircleCIArtifacts_script (Stub.world "success" "success") (Some "token")
      Stub.fresh in
  (forall r, fst run <> Returned (Some r))
  /\ (exists t, trace (snd run) = trace Stub.fresh ++ t /\ Forall offline t)
  /\ fst run = Thrown (ReferenceError "branchName is not defined").
Proof.
  intros run.
  destruct (setupCircleCIArtifacts_script_never_initializes
              (Stub.world "success" "success") (Some "token") Stub.fresh)
    as (H1 & H2 & H3).
  split; [exact H1|]. split; [exact H2|].
  apply (H3 "token"); [reflexivity | discriminate].
Defined.
